(** * fan-cli: embedded-controller fan control (src/main.c)

    A shallow embedding of the fan controller: the EC port handshake, the
    sensor sources, the percent/raw/RPM conversions and the auto-control
    cycle, followed by the properties checked against them.

    Conventions.
    - A C [int] is a [Z]; arithmetic that can leave the 32-bit range is
      wrapped with [int32].  A [uint8_t] is a [Z] reduced by [uint8].
    - A C [double] is an IEEE-754 binary64 value, [spec_float] at precision
      53 and maximal exponent 1024, with the round-to-nearest-even
      operations of [SpecFloat].
    - Port I/O, the file system and the subprocess are effects on a
      [World]; every effect is appended to the world's [trace]. *)

From Stdlib Require Import QArith Qround.
From Stdlib Require Import ZArith Lia List Bool Ascii String DecimalString.
From Stdlib Require Import Floats.SpecFloat.
From Stdlib Require Import Permutation.
Import ListNotations.

Local Open Scope Z_scope.

(* ================================================================== *)
(** ** Machine integers *)

Module CInt.

Definition int_min : Z := - 2 ^ 31.
Definition int_max : Z := 2 ^ 31 - 1.

(** Two's-complement reduction to a signed 32-bit [int]. *)
Definition int32 (z : Z) : Z := (z + 2 ^ 31) mod 2 ^ 32 - 2 ^ 31.

(** Conversion to [uint8_t]. *)
Definition uint8 (z : Z) : Z := z mod 256.

Definition in_int (z : Z) : Prop := int_min <= z <= int_max.

(** [a / b] on [int]: truncation toward zero. *)
Definition idiv (a b : Z) : Z := int32 (Z.quot a b).

End CInt.
Import CInt.

(* ================================================================== *)
(** ** Doubles *)

Module CDouble.

Definition double := spec_float.

Definition prec : Z := 53.
Definition emax : Z := 1024.

Definition dadd : double -> double -> double := SFadd prec emax.
Definition dsub : double -> double -> double := SFsub prec emax.
Definition dmul : double -> double -> double := SFmul prec emax.
Definition ddiv : double -> double -> double := SFdiv prec emax.

(** [(double) n] for an [int] [n]; exact, an [int] has at most 31
    significant bits. *)
Definition of_int (n : Z) : double := binary_normalize prec emax n 0 false.

(** The literal [0.5]. *)
Definition half : double := binary_normalize prec emax 1 (-1) false.

(** [(int) x]: the fractional part is discarded (truncation toward zero).
    Where the value does not fit an [int], or [x] is not finite, C leaves
    the result undefined; the model returns what the x86-64 conversion
    instruction returns, [INT_MIN]. *)
Definition to_int (x : double) : Z :=
  match x with
  | S754_zero _ => 0
  | S754_finite s m e =>
      let mag := if 0 <=? e then Z.pos m * 2 ^ e else Z.pos m / 2 ^ (- e) in
      let v := if s then - mag else mag in
      if (int_min <=? v) && (v <=? int_max) then v else int_min
  | S754_infinity _ | S754_nan => int_min
  end.

End CDouble.
Import CDouble.

(* ================================================================== *)
(** ** Constants of main.c *)

Definition EC_SC : Z := 0x66.
Definition EC_DATA : Z := 0x62.
Definition IBF : Z := 1.
Definition OBF : Z := 0.
Definition EC_SC_READ_CMD : Z := 0x80.

Definition EC_REG_CPU_TEMP : Z := 0x07.
Definition EC_REG_GPU_TEMP : Z := 0xCD.
Definition EC_REG_FAN1_DUTY : Z := 0xCE.
Definition EC_REG_FAN2_DUTY : Z := 0xCF.
Definition EC_REG_FAN1_RPM_HI : Z := 0xD0.
Definition EC_REG_FAN1_RPM_LO : Z := 0xD1.
Definition EC_REG_FAN2_RPM_HI : Z := 0xD2.
Definition EC_REG_FAN2_RPM_LO : Z := 0xD3.

Definition MIN_FAN_DUTY_PCT : Z := 20.
Definition AUTO_MIN_TEMP_C : Z := 40.
Definition AUTO_MAX_TEMP_C : Z := 80.
Definition MIN_DEADBAND_C : Z := 2.
Definition STEP_PCT : Z := 2.

(* ================================================================== *)
(** ** Pure helpers *)

(** [clamp]. *)
Definition clamp (v lo hi : Z) : Z :=
  if v <? lo then lo
  else if hi <? v then hi
  else v.

(** The interpolation shared by [target_duty_from_temp_hot] and
    [map_temp_to_duty]:
    [duty = y0 + (y1 - y0) * ((temp_c - x0) / (x1 - x0));
     pct = (int)(duty + 0.5); clamp(pct, 0, 100)]. *)
Definition linear_duty (temp_c : Z) : Z :=
  let x0 := of_int AUTO_MIN_TEMP_C in
  let y0 := of_int MIN_FAN_DUTY_PCT in
  let x1 := of_int AUTO_MAX_TEMP_C in
  let y1 := of_int 100 in
  let duty :=
    dadd y0 (dmul (dsub y1 y0) (ddiv (dsub (of_int temp_c) x0) (dsub x1 x0))) in
  let pct := to_int (dadd duty half) in
  clamp pct 0 100.

(** [target_duty_from_temp_hot]. *)
Definition target_duty_from_temp_hot (temp_c prev_pct : Z) : Z :=
  if AUTO_MAX_TEMP_C <=? temp_c then 100
  else
    let on_thr := AUTO_MIN_TEMP_C + MIN_DEADBAND_C in
    let off_thr := AUTO_MIN_TEMP_C - MIN_DEADBAND_C in
    if (if prev_pct =? 0 then temp_c <=? on_thr else temp_c <? off_thr) then 0
    else if temp_c <=? AUTO_MIN_TEMP_C then MIN_FAN_DUTY_PCT
    else linear_duty temp_c.

(** [step_toward]. *)
Definition step_toward (last_pct target_pct : Z) : Z :=
  let delta := int32 (target_pct - last_pct) in
  if 0 <? delta then
    int32 (last_pct + (if delta <? STEP_PCT then delta else STEP_PCT))
  else if delta <? 0 then
    int32 (last_pct
           - (if int32 (- delta) <? STEP_PCT then int32 (- delta) else STEP_PCT))
  else last_pct.

(** [rpm_from_raw]. *)
Definition rpm_from_raw (hi lo : Z) : Z :=
  let raw := Z.lor (int32 (Z.shiftl hi 8)) lo in
  if 0 <? raw then idiv 2156220 raw else 0.

(** The conversion inside [fan1_duty_write] and [fan2_duty_write]:
    [pct = clamp(pct, 0, 100); v = (int)(pct / 100.0 * 255.0 + 0.5);]
    and the [(uint8_t)v] handed to [ec_io_do]. *)
Definition duty_pct_to_raw (pct : Z) : Z :=
  let pct := clamp pct 0 100 in
  let v := to_int (dadd (dmul (ddiv (of_int pct) (of_int 100)) (of_int 255)) half) in
  uint8 v.

(** The conversion inside [fan1_duty_read] and [fan2_duty_read]:
    [pct = (int)((raw / 255.0) * 100.0 + 0.5); clamp(pct, 0, 100)]. *)
Definition duty_raw_to_pct (raw : Z) : Z :=
  let pct := to_int (dadd (dmul (ddiv (of_int raw) (of_int 255)) (of_int 100)) half) in
  clamp pct 0 100.

(** The duty chosen in one cycle of [cmd_auto]:
    [newduty = (th >= AUTO_MAX_TEMP_C) ? 100 : step_toward(last, target);
     newduty = clamp(newduty, 0, 100);]. *)
Definition auto_new_duty (th last : Z) : Z :=
  let target := target_duty_from_temp_hot th last in
  let newduty := if AUTO_MAX_TEMP_C <=? th then 100 else step_toward last target in
  clamp newduty 0 100.

(* ================================================================== *)
(** ** The world: ports, files, subprocesses *)

(** The effects the program performs, in the order it performs them. *)
Inductive Event : Type :=
| EvInb (port data : Z)          (* data = inb(port) *)
| EvOutb (value port : Z)        (* outb(value, port) *)
| EvUsleep (usec : Z)
| EvOpendir (path : string)
| EvOpen (path : string)
| EvAccess (path : string)
| EvPopen (command : string).

Inductive File : Type :=
| Absent                         (* access() and open() both fail *)
| Unreadable                     (* the path exists, open() fails *)
| Content (bytes : string).

(** The file system and the subprocess are taken as they are when a command
    starts; the controller may answer every port read differently. *)
Record World : Type := mkWorld {
  (** What the controller answers: the byte delivered by the [n]-th [inb]
      of the run when it reads [port].  Any behaviour of the hardware during
      one run is such a function. *)
  ec_port : nat -> Z -> Z;
  inb_count : nat;
  (** [opendir]/[readdir]: the entries of a directory, [None] when it
      cannot be opened. *)
  dir_entries : string -> option (list string);
  files : string -> File;
  (** [popen]: the standard output of a command, [None] when it cannot be
      started. *)
  subprocess : string -> option string;
  trace : list Event
}.

Definition log (e : Event) (w : World) : World :=
  mkWorld (ec_port w) (inb_count w) (dir_entries w) (files w) (subprocess w)
          (trace w ++ [e]).

(** Computations that act on the world. *)
Definition M (A : Type) : Type := World -> A * World.

Definition ret {A} (a : A) : M A := fun w => (a, w).

Definition bind {A B} (m : M A) (k : A -> M B) : M B :=
  fun w => let (a, w') := m w in k a w'.

Declare Scope io_scope.
Delimit Scope io_scope with io.
Notation "x <- m ;; k" := (bind m (fun x => k))
  (at level 61, m at next level, right associativity) : io_scope.
Notation "m ;;; k" := (bind m (fun _ => k))
  (at level 61, right associativity) : io_scope.
Local Open Scope io_scope.

Definition inb (port : Z) : M Z := fun w =>
  let data := uint8 (ec_port w (inb_count w) port) in
  (data,
   mkWorld (ec_port w) (S (inb_count w)) (dir_entries w) (files w)
           (subprocess w) (trace w ++ [EvInb port data])).

Definition outb (value port : Z) : M unit := fun w =>
  (tt, log (EvOutb (uint8 value) port) w).

Definition usleep (usec : Z) : M unit := fun w => (tt, log (EvUsleep usec) w).

(** The port writes of a trace, oldest first. *)
Fixpoint outbs (tr : list Event) : list (Z * Z) :=
  match tr with
  | [] => []
  | EvOutb v p :: tr' => (v, p) :: outbs tr'
  | _ :: tr' => outbs tr'
  end.

(* ================================================================== *)
(** ** EC access *)

(** [((data >> flag) & 0x1) != value]. *)
Definition flag_differs (data flag value : Z) : bool :=
  negb (Z.land (Z.shiftr data flag) 1 =? value).

(** The loop of [ec_io_wait] together with its [return], entered with the
    counter [i] at [100 - left] and the last byte read in [data].
    - flag differs and [i < 100]: [i++], sleep, read again;
    - flag differs and [i = 100]: [i++ < 100] is false, [i] becomes 101 and
      the function returns -1;
    - flag equal: the loop ends without touching [i], and the function
      returns [(i >= 100) ? -1 : 0]. *)
Fixpoint ec_io_wait_loop (left : nat) (port flag value data : Z) : M Z :=
  if flag_differs data flag value then
    match left with
    | S left' =>
        usleep 1000 ;;;
        data' <- inb port ;;
        ec_io_wait_loop left' port flag value data'
    | O => ret (-1)
    end
  else
    match left with
    | O => ret (-1)
    | S _ => ret 0
    end.

(** [ec_io_wait]. *)
Definition ec_io_wait (port flag value : Z) : M Z :=
  data <- inb port ;;
  ec_io_wait_loop 100 port flag value data.

(** [ec_io_read]: the three waits are not checked. *)
Definition ec_io_read (port : Z) : M Z :=
  ec_io_wait EC_SC IBF 0 ;;;
  outb EC_SC_READ_CMD EC_SC ;;;
  ec_io_wait EC_SC IBF 0 ;;;
  outb port EC_DATA ;;;
  ec_io_wait EC_SC OBF 1 ;;;
  inb EC_DATA.

(** [ec_io_do]. *)
Definition ec_io_do (cmd port value : Z) : M Z :=
  r1 <- ec_io_wait EC_SC IBF 0 ;;
  if negb (r1 =? 0) then ret (-1) else
  outb cmd EC_SC ;;;
  r2 <- ec_io_wait EC_SC IBF 0 ;;
  if negb (r2 =? 0) then ret (-1) else
  outb port EC_DATA ;;;
  r3 <- ec_io_wait EC_SC IBF 0 ;;
  if negb (r3 =? 0) then ret (-1) else
  outb value EC_DATA ;;;
  ec_io_wait EC_SC IBF 0.

(** [cpu_temp_ec]. *)
Definition cpu_temp_ec : M Z := ec_io_read EC_REG_CPU_TEMP.

(** [fan1_duty_read], [fan2_duty_read]. *)
Definition fan1_duty_read : M Z :=
  raw <- ec_io_read EC_REG_FAN1_DUTY ;; ret (duty_raw_to_pct raw).

Definition fan2_duty_read : M Z :=
  raw <- ec_io_read EC_REG_FAN2_DUTY ;; ret (duty_raw_to_pct raw).

(** [fan1_rpm_read], [fan2_rpm_read]. *)
Definition fan1_rpm_read : M Z :=
  hi <- ec_io_read EC_REG_FAN1_RPM_HI ;;
  lo <- ec_io_read EC_REG_FAN1_RPM_LO ;;
  ret (rpm_from_raw hi lo).

Definition fan2_rpm_read : M Z :=
  hi <- ec_io_read EC_REG_FAN2_RPM_HI ;;
  lo <- ec_io_read EC_REG_FAN2_RPM_LO ;;
  ret (rpm_from_raw hi lo).

(** [fan1_duty_write], [fan2_duty_write]: EC command 0x99, port 0x01 for
    fan1 and 0x02 for fan2. *)
Definition fan1_duty_write (pct : Z) : M Z :=
  ec_io_do 0x99 0x01 (duty_pct_to_raw pct).

Definition fan2_duty_write (pct : Z) : M Z :=
  ec_io_do 0x99 0x02 (duty_pct_to_raw pct).

(* ================================================================== *)
(** ** C strings *)

Module CString.

Local Open Scope string_scope.
Local Open Scope Z_scope.

Definition NUL : ascii := Ascii.zero.
Definition LF : ascii := "010"%char.

(** The string a [char] buffer holds: the bytes before the first NUL. *)
Fixpoint c_str (buf : string) : string :=
  match buf with
  | EmptyString => EmptyString
  | String c rest => if Ascii.eqb c NUL then EmptyString else String c (c_str rest)
  end.

(** [snprintf(dst, size, ...)]: at most [size - 1] bytes are kept. *)
Definition snprintf (size : nat) (s : string) : string :=
  substring 0 (size - 1) s.

(** [strncmp(s, lit, strlen(lit)) == 0]. *)
Definition starts_with (lit s : string) : bool := prefix lit s.

(** [strstr(hay, needle) != NULL]. *)
Fixpoint strstr (hay needle : string) : bool :=
  prefix needle hay ||
  match hay with
  | EmptyString => false
  | String _ rest => strstr rest needle
  end.

(** A buffer after
    [for (i = 0; i < n; i++) if (buf[i] == '\n') { buf[i] = 0; break; }],
    read as a C string: the bytes before the first newline or NUL. *)
Fixpoint chomp (buf : string) : string :=
  match buf with
  | EmptyString => EmptyString
  | String c rest =>
      if Ascii.eqb c LF || Ascii.eqb c NUL then EmptyString
      else String c (chomp rest)
  end.

(** [fgets(buf, size, stream)]: bytes up to and including the first
    newline, at most [size - 1] of them; [None] (NULL) at end of file. *)
Fixpoint fgets_line (n : nat) (s : string) : string :=
  match n, s with
  | S n', String c rest =>
      if Ascii.eqb c LF then String c EmptyString
      else String c (fgets_line n' rest)
  | _, _ => EmptyString
  end.

Definition fgets (size : nat) (out : string) : option string :=
  match out with
  | EmptyString => None
  | _ => Some (fgets_line (size - 1) out)
  end.

Definition isspace (c : ascii) : bool :=
  let n := Z.of_N (N_of_ascii c) in
  (n =? 32) || ((9 <=? n) && (n <=? 13)).

Definition digit_value (c : ascii) : option Z :=
  let n := Z.of_N (N_of_ascii c) in
  if (48 <=? n) && (n <=? 57) then Some (n - 48) else None.

Fixpoint skip_spaces (s : string) : string :=
  match s with
  | String c rest => if isspace c then skip_spaces rest else s
  | EmptyString => s
  end.

Fixpoint digits (acc : Z) (s : string) : Z :=
  match s with
  | String c rest =>
      match digit_value c with
      | Some d => digits (10 * acc + d) rest
      | None => acc
      end
  | EmptyString => acc
  end.

(** [strtol(s, NULL, 10)]: white space, an optional sign, decimal digits;
    the value saturates at the bounds of a 64-bit [long]. *)
Definition strtol (s : string) : Z :=
  let s := skip_spaces s in
  let v :=
    match s with
    | String "-" rest => - digits 0 rest
    | String "+" rest => digits 0 rest
    | _ => digits 0 s
    end in
  Z.max (- 2 ^ 63) (Z.min (2 ^ 63 - 1) v).

(** [atoi(buf)], that is [(int) strtol(buf, NULL, 10)]. *)
Definition atoi (buf : string) : Z := int32 (strtol (c_str buf)).

(** ["%d"] of a non-negative [int]. *)
Definition dec (i : nat) : string := NilZero.string_of_uint (Nat.to_uint i).

End CString.
Import CString.

(* ================================================================== *)
(** ** File and subprocess access *)

Local Open Scope string_scope.
Local Open Scope Z_scope.

(** [access(path, F_OK) == 0]. *)
Definition path_exists (path : string) : M bool := fun w =>
  (match files w path with Absent => false | _ => true end,
   log (EvAccess path) w).

(** [fd = open(path, O_RDONLY); n = read(fd, buf, size - 1); close(fd)] on a
    zeroed buffer: [None] when [open] fails, else the bytes read. *)
Definition open_read (path : string) (size : nat) : M (option string) := fun w =>
  (match files w path with
   | Content bytes => Some (substring 0 (size - 1) bytes)
   | _ => None
   end,
   log (EvOpen path) w).

(** [read_int_from_file]. *)
Definition read_int_from_file (path : string) : M Z :=
  r <- open_read path 64 ;;
  match r with
  | None => ret (-1)
  | Some EmptyString => ret (-1)          (* n <= 0 *)
  | Some buf => ret (atoi buf)
  end.

Definition opendir (path : string) : M (option (list string)) := fun w =>
  (dir_entries w path, log (EvOpendir path) w).

Definition popen (command : string) : M (option string) := fun w =>
  (subprocess w command, log (EvPopen command) w).

(* ================================================================== *)
(** ** GPU temperature sources *)

Definition hwmon_dir : string := "/sys/class/hwmon".
Definition nvidia_smi_path : string := "/usr/bin/nvidia-smi".
Definition nvidia_smi_cmd : string :=
  "/usr/bin/nvidia-smi --query-gpu=temperature.gpu --format=csv,noheader,nounits 2>/dev/null".

(** The name test of [gpu_temp_sysfs]. *)
Definition gpu_driver_name (name : string) : bool :=
  strstr name "nvidia" || strstr name "amdgpu" ||
  strstr name "i915" || strstr name "xe".

(** [snprintf(base, sizeof(base), "/sys/class/hwmon/%s", de->d_name)]. *)
Definition hwmon_base (d_name : string) : string :=
  snprintf 256 ("/sys/class/hwmon/" ++ d_name).

(** [snprintf(namepath, sizeof(namepath), "%s/name", base)]. *)
Definition name_path (base : string) : string :=
  snprintf 300 (base ++ "/name").

(** [snprintf(tpath, sizeof(tpath), "%s/temp%d_input", base, i)]. *)
Definition temp_path (base : string) (i : nat) : string :=
  snprintf 320 (base ++ "/temp" ++ dec i ++ "_input").

(** The inner loop of [gpu_temp_sysfs], [for (i = 1; i <= 10; i++)], over
    the indices still to visit. *)
Fixpoint scan_temps (base : string) (indices : list nat) (best : Z) : M Z :=
  match indices with
  | [] => ret best
  | i :: rest =>
      let tpath := temp_path base i in
      present <- path_exists tpath ;;
      if negb present then scan_temps base rest best else
      milli <- read_int_from_file tpath ;;
      if 0 <? milli then
        let c := idiv milli 1000 in
        scan_temps base rest (if best <? c then c else best)
      else scan_temps base rest best
  end.

(** The outer loop of [gpu_temp_sysfs], [while ((de = readdir(d)) != NULL)],
    over the directory entries still to visit. *)
Fixpoint scan_hwmon (entries : list string) (best : Z) : M Z :=
  match entries with
  | [] => ret best
  | d_name :: rest =>
      if negb (starts_with "hwmon" d_name) then scan_hwmon rest best else
      let base := hwmon_base d_name in
      let namepath := name_path base in
      r <- open_read namepath 64 ;;
      match r with
      | None => scan_hwmon rest best
      | Some EmptyString => scan_hwmon rest best       (* n <= 0 *)
      | Some namebuf =>
          if gpu_driver_name (chomp namebuf) then
            best' <- scan_temps base (seq 1 10) best ;;
            scan_hwmon rest best'
          else scan_hwmon rest best
      end
  end.

(** [gpu_temp_sysfs]. *)
Definition gpu_temp_sysfs : M Z :=
  d <- opendir hwmon_dir ;;
  match d with
  | None => ret (-1)
  | Some entries => scan_hwmon entries (-1)
  end.

(** [gpu_temp_nvidia_smi]. *)
Definition gpu_temp_nvidia_smi : M Z :=
  present <- path_exists nvidia_smi_path ;;
  if negb present then ret (-1) else
  p <- popen nvidia_smi_cmd ;;
  match p with
  | None => ret (-1)
  | Some out =>
      match fgets 64 out with
      | None => ret (-1)
      | Some buf =>
          let t := atoi buf in
          if (0 <? t) && (t <? 130) then ret t else ret (-1)
      end
  end.

(** [gpu_temp]. *)
Definition gpu_temp : M Z :=
  t <- gpu_temp_sysfs ;;
  if 0 <? t then ret t else
  t <- gpu_temp_nvidia_smi ;;
  if 0 <? t then ret t else
  ec_io_read EC_REG_GPU_TEMP.

(* ================================================================== *)
(** ** The auto-control loop *)

(** What one cycle prints: temperatures, the duty and both RPM readings. *)
Record Status : Type := mkStatus {
  st_cpu : Z;
  st_gpu : Z;
  st_hot : Z;
  st_duty : Z;
  st_rpm1 : Z;
  st_rpm2 : Z
}.

(** The first three statements of the loop body: both temperatures and the
    hotter of the two. *)
Definition auto_sense : M (Z * Z * Z) :=
  tc <- cpu_temp_ec ;;
  tg <- gpu_temp ;;
  ret (tc, tg, if tg <? tc then tc else tg).

(** [if (newduty != last) { fan1_duty_write(newduty);
    fan2_duty_write(newduty); last = newduty; }]; the value of [last]
    afterwards. *)
Definition auto_apply (newduty last : Z) : M Z :=
  if negb (newduty =? last) then
    fan1_duty_write newduty ;;;
    fan2_duty_write newduty ;;;
    ret newduty
  else ret last.

(** One iteration of the [while (!g_stop)] loop of [cmd_auto], from the
    value of [last] on entry to its value on exit and the status line. *)
Definition auto_cycle (last : Z) : M (Z * Status) :=
  s <- auto_sense ;;
  let '(tc, tg, th) := s in
  let newduty := auto_new_duty th last in
  last' <- auto_apply newduty last ;;
  r1 <- fan1_rpm_read ;;
  r2 <- fan2_rpm_read ;;
  usleep (1000 * 1000) ;;;
  ret (last', mkStatus tc tg th newduty r1 r2).

(** [cycles] iterations of the loop: [g_stop], set by the signal handler,
    is read as 0 that many times and as 1 afterwards. *)
Fixpoint auto_loop (cycles : nat) (last : Z) : M (Z * list Status) :=
  match cycles with
  | O => ret (last, [])
  | S n =>
      r <- auto_cycle last ;;
      let '(last', st) := r in
      rest <- auto_loop n last' ;;
      let '(final, sts) := rest in
      ret (final, st :: sts)
  end.

(** [cmd_auto], stopped after [cycles] iterations. *)
Definition cmd_auto (cycles : nat) : M (Z * list Status) :=
  d <- fan1_duty_read ;;
  let last := clamp d 0 100 in
  fan2_duty_write last ;;;
  auto_loop cycles last.

(* ================================================================== *)
(** ** The conversions and the curve as the specification words them *)

(** Round to the nearest integer. *)
Definition round_nearest (q : Q) : Z := Qfloor (q + (1 # 2)).

(** Specification, linear region: [20 + (100 - 20) * (hot - 40) / (80 - 40)]
    over the rationals, rounded to nearest and clamped to [[0,100]]. *)
Definition spec_linear_duty (hot : Z) : Z :=
  clamp (round_nearest (20 + (100 - 20) * ((inject_Z hot - 40) / (80 - 40)))%Q) 0 100.

(** Specification, [raw = round(pct/100 * 255)]. *)
Definition spec_percent_to_raw (pct : Z) : Z :=
  round_nearest (inject_Z pct / 100 * 255)%Q.

(** Specification, [pct = round(raw/255 * 100)], clamped to [[0,100]]. *)
Definition spec_raw_to_percent (raw : Z) : Z :=
  clamp (round_nearest (inject_Z raw / 255 * 100)%Q) 0 100.

(** The integers [lo], [lo + 1], ..., [lo + n - 1]. *)
Definition zrange (lo : Z) (n : nat) : list Z :=
  map (fun k => lo + Z.of_nat k) (seq 0 n).

(* ================================================================== *)
(** ** Sample worlds *)

Definition no_dirs : string -> option (list string) := fun _ => None.
Definition no_files : string -> File := fun _ => Absent.
Definition no_subprocess : string -> option string := fun _ => None.

(** A controller that answers at once: the status port always reads 0x01
    (IBF clear, OBF set) and the data port always reads [data].  No sensor
    hub, no vendor tool. *)
Definition world_ready (data : Z) : World :=
  mkWorld (fun _ port => if port =? EC_SC then 0x01 else data)
          0 no_dirs no_files no_subprocess [].

(** A controller that answers the first [n] port reads like [world_ready]
    and from then on keeps IBF set (status 0x02). *)
Definition world_stalls_after (n : nat) (data : Z) : World :=
  mkWorld (fun k port =>
             if port =? EC_SC then (if (k <? n)%nat then 0x01 else 0x02)
             else data)
          0 no_dirs no_files no_subprocess [].

Definition newline : string := String LF EmptyString.

(** A sensor hub with one monitor, [hwmon0], named "amdgpu", whose
    [temp1_input] reads 55000 millidegrees; the vendor tool is installed and
    would report 70; the EC reports 40. *)
Definition world_amdgpu : World :=
  mkWorld (fun _ port => if port =? EC_SC then 0x01 else 40)
          0
          (fun path =>
             if (path =? "/sys/class/hwmon")%string
             then Some ["."; ".."; "hwmon0"] else None)
          (fun path =>
             if (path =? "/sys/class/hwmon/hwmon0/name")%string
             then Content ("amdgpu" ++ newline)
             else if (path =? "/sys/class/hwmon/hwmon0/temp1_input")%string
             then Content ("55000" ++ newline)
             else if (path =? "/usr/bin/nvidia-smi")%string
             then Content "ELF"
             else Absent)
          (fun command =>
             if (command =? nvidia_smi_cmd)%string
             then Some ("70" ++ newline) else None)
          [].

(** Whether a trace shows the vendor tool being looked for or started. *)
Definition vendor_event (e : Event) : bool :=
  match e with
  | EvAccess path => (path =? nvidia_smi_path)%string
  | EvPopen _ => true
  | _ => false
  end.

(** Whether a trace shows port I/O. *)
Definition port_event (e : Event) : bool :=
  match e with
  | EvInb _ _ | EvOutb _ _ => true
  | _ => false
  end.

(** The bytes [outb] sends for a duty write to fan [sel] (0x01 or 0x02). *)
Definition duty_write_bytes (sel pct : Z) : list (Z * Z) :=
  [(0x99, EC_SC); (sel, EC_DATA); (duty_pct_to_raw pct, EC_DATA)].

(** The byte the controller delivers to the [k]-th port read from now on. *)
Definition answer (w : World) (port : Z) (k : nat) : Z :=
  uint8 (ec_port w (inb_count w + k)%nat port).

(** A wait started in [w] times out: none of the next 100 bytes read from
    [port] shows [flag] at [value]. *)
Definition wait_times_out (port flag value : Z) (w : World) : bool :=
  negb (existsb (fun j => negb (flag_differs (answer w port j) flag value))
                (seq 0 100)).

(** The bytes the loop of a wait examines: the one in hand, then those it
    reads. *)
Definition examined (w : World) (port data : Z) (j : nat) : Z :=
  match j with
  | O => data
  | S k => answer w port k
  end.

(** File-system events away from the vendor tool. *)
Definition hub_event (e : Event) : bool :=
  negb (vendor_event e) && negb (port_event e).

(** [m] only adds events to the trace, every one of them satisfying [ok],
    and leaves the rest of the world as it found it. *)
Definition adds_only {A} (ok : Event -> bool) (m : M A) : Prop :=
  forall w, exists evs,
    trace (snd (m w)) = (trace w ++ evs)%list /\
    forallb ok evs = true /\
    files (snd (m w)) = files w /\
    dir_entries (snd (m w)) = dir_entries w /\
    subprocess (snd (m w)) = subprocess w.

(* ================================================================== *)
(** ** The single-shot commands and [main] *)

Definition EXIT_FAILURE : Z := 1.

(** [map_temp_to_duty]. *)
Definition map_temp_to_duty (temp_c : Z) : Z :=
  if temp_c <? AUTO_MIN_TEMP_C then 0
  else if AUTO_MAX_TEMP_C <=? temp_c then 100
  else linear_duty temp_c.

(** The two lines [dump_status] prints. *)
Record Dump : Type := mkDump {
  dump_cpu : Z;
  dump_duty1 : Z;
  dump_rpm1 : Z;
  dump_gpu : Z;
  dump_duty2 : Z;
  dump_rpm2 : Z
}.

(** What a command writes for the user: the status lines on standard
    output, a message on standard error, or the lines of the auto loop. *)
Inductive Output : Type :=
| Printed (d : Dump)
| Complained (msg : string)
| AutoRan (lines : list Status).

(** [dump_status]. *)
Definition dump_status : M (Z * Output) :=
  tc <- cpu_temp_ec ;;
  tg <- gpu_temp ;;
  d1 <- fan1_duty_read ;;
  r1 <- fan1_rpm_read ;;
  d2 <- fan2_duty_read ;;
  r2 <- fan2_rpm_read ;;
  ret (0, Printed (mkDump tc d1 r1 tg d2 r2)).

(** [cmd_set_both]. *)
Definition cmd_set_both (pct : Z) : M (Z * Output) :=
  if (pct <? 0) || (100 <? pct)
  then ret (EXIT_FAILURE, Complained "Duty must be 0..100") else
  r1 <- fan1_duty_write pct ;;
  if negb (r1 =? 0) then ret (EXIT_FAILURE, Complained "Failed to set fan1") else
  r2 <- fan2_duty_write pct ;;
  if negb (r2 =? 0) then ret (EXIT_FAILURE, Complained "Failed to set fan2") else
  usleep (1000 * 1000) ;;;
  dump_status.

(** [cmd_set1]. *)
Definition cmd_set1 (pct : Z) : M (Z * Output) :=
  if (pct <? 0) || (100 <? pct)
  then ret (EXIT_FAILURE, Complained "Duty must be 0..100") else
  r1 <- fan1_duty_write pct ;;
  if negb (r1 =? 0) then ret (EXIT_FAILURE, Complained "Failed to set fan1") else
  usleep (500 * 1000) ;;;
  dump_status.

(** [cmd_set2]. *)
Definition cmd_set2 (pct : Z) : M (Z * Output) :=
  if (pct <? 0) || (100 <? pct)
  then ret (EXIT_FAILURE, Complained "Duty must be 0..100") else
  r2 <- fan2_duty_write pct ;;
  if negb (r2 =? 0) then ret (EXIT_FAILURE, Complained "Failed to set fan2") else
  usleep (500 * 1000) ;;;
  dump_status.

(** [ec_init], given what [ioperm(port, 1, 1)] returns for each port. *)
Definition ec_init (ioperm : Z -> Z) : Z :=
  if negb (ioperm EC_DATA =? 0) then -1
  else if negb (ioperm EC_SC =? 0) then -1
  else 0.

(** [main] on the argument vector [argv] ([argv[0]] included), given the
    answers of [ioperm]; the auto command is stopped after [cycles]
    iterations.  The text of the usage and error messages is shortened to
    its first line, without the program name and the [errno] text. *)
Definition main (ioperm : Z -> Z) (cycles : nat) (argv : list string)
  : M (Z * Output) :=
  match argv with
  | [] | [_] => ret (EXIT_FAILURE, Complained "Usage")
  | _ :: command :: args =>
      if negb (ec_init ioperm =? 0)
      then ret (EXIT_FAILURE, Complained "EC init failed") else
      if (command =? "dump")%string then dump_status else
      if (command =? "set")%string then
        match args with
        | [] => ret (EXIT_FAILURE, Complained "Usage: set")
        | a :: _ => cmd_set_both (atoi a)
        end else
      if (command =? "set1")%string then
        match args with
        | [] => ret (EXIT_FAILURE, Complained "Usage: set1")
        | a :: _ => cmd_set1 (atoi a)
        end else
      if (command =? "set2")%string then
        match args with
        | [] => ret (EXIT_FAILURE, Complained "Usage: set2")
        | a :: _ => cmd_set2 (atoi a)
        end else
      if (command =? "auto")%string then
        r <- cmd_auto cycles ;; ret (0, AutoRan (snd r))
      else ret (EXIT_FAILURE, Complained "Unknown command")
  end.

(** The number of port reads a computation performs from [w]. *)
Definition reads_of {A} (m : M A) (w : World) : nat :=
  (inb_count (snd (m w)) - inb_count w)%nat.

(** The bytes [ec_io_read] sends for register [reg]. *)
Definition read_bytes (reg : Z) : list (Z * Z) :=
  [(EC_SC_READ_CMD, EC_SC); (uint8 reg, EC_DATA)].

(** Whether a port write is the read command on the command port, or a
    byte on the data port. *)
Definition read_only_write (vp : Z * Z) : bool :=
  if snd vp =? EC_SC then fst vp =? EC_SC_READ_CMD else snd vp =? EC_DATA.

(** The sensor scan without the trace: the hottest positive reading, in
    whole degrees, among the files [temp<i>_input] of [base] for the given
    indices, starting from [best]. *)
Fixpoint hottest_temp (fs : string -> File) (base : string)
         (indices : list nat) (best : Z) : Z :=
  match indices with
  | [] => best
  | i :: rest =>
      match fs (temp_path base i) with
      | Content bytes =>
          let buf := substring 0 63 bytes in
          let milli := match buf with EmptyString => -1 | _ => atoi buf end in
          if 0 <? milli
          then hottest_temp fs base rest (Z.max best (idiv milli 1000))
          else hottest_temp fs base rest best
      | _ => hottest_temp fs base rest best
      end
  end.

(** Whether the scan takes the directory entry [d_name] for a GPU monitor. *)
Definition gpu_monitor (fs : string -> File) (d_name : string) : bool :=
  starts_with "hwmon" d_name &&
  match fs (name_path (hwmon_base d_name)) with
  | Content bytes => gpu_driver_name (chomp (substring 0 63 bytes))
  | _ => false
  end.

(** The hottest reading over the GPU monitors among [entries]. *)
Fixpoint hottest_monitor (fs : string -> File) (entries : list string)
         (best : Z) : Z :=
  match entries with
  | [] => best
  | d_name :: rest =>
      if gpu_monitor fs d_name
      then hottest_monitor fs rest
             (hottest_temp fs (hwmon_base d_name) (seq 1 10) best)
      else hottest_monitor fs rest best
  end.

(** [n] cycles of the auto loop at a constant hot temperature [th], on the
    duty alone. *)
Definition settle (th : Z) (n : nat) (last : Z) : Z :=
  Nat.iter n (auto_new_duty th) last.

(** The duty of the last line printed, [last] when there is none. *)
Definition final_duty (lines : list Status) (last : Z) : Z :=
  List.last (map st_duty lines) last.

(** [m] performs at most [n] port reads, and the bytes it sends all
    satisfy [ok]. *)
Definition io_bound {A} (n : nat) (ok : Z * Z -> bool) (m : M A) : Prop :=
  forall w,
    (inb_count w <= inb_count (snd (m w)) <= inb_count w + n)%nat /\
    exists bytes,
      outbs (trace (snd (m w))) = (outbs (trace w) ++ bytes)%list /\
      forallb ok bytes = true.

(** A fan command or a read command on the command port, or a byte on the
    data port: everything the program ever sends. *)
Definition ec_write (vp : Z * Z) : bool :=
  if snd vp =? EC_SC then (fst vp =? EC_SC_READ_CMD) || (fst vp =? 0x99)
  else snd vp =? EC_DATA.

(** One directory entry of the scan, without the trace. *)
Definition monitor_step (fs : string -> File) (d_name : string) (best : Z) : Z :=
  if gpu_monitor fs d_name
  then hottest_temp fs (hwmon_base d_name) (seq 1 10) best
  else best.

(** A sensor hub with three monitors: [hwmon0] is not a GPU ("acpitz", 90
    degrees), [hwmon1] is "amdgpu" with readings of 55 and 61 degrees,
    [hwmon2] is "nvidia" at 48 degrees.  The directory lists them in the
    order given. *)
Definition world_three_monitors (listing : list string) : World :=
  mkWorld (fun _ port => if port =? EC_SC then 0x01 else 40)
          0
          (fun path =>
             if (path =? "/sys/class/hwmon")%string then Some listing else None)
          (fun path =>
             if (path =? "/sys/class/hwmon/hwmon0/name")%string
             then Content ("acpitz" ++ newline)
             else if (path =? "/sys/class/hwmon/hwmon0/temp1_input")%string
             then Content ("90000" ++ newline)
             else if (path =? "/sys/class/hwmon/hwmon1/name")%string
             then Content ("amdgpu" ++ newline)
             else if (path =? "/sys/class/hwmon/hwmon1/temp1_input")%string
             then Content ("55000" ++ newline)
             else if (path =? "/sys/class/hwmon/hwmon1/temp2_input")%string
             then Content ("61000" ++ newline)
             else if (path =? "/sys/class/hwmon/hwmon2/name")%string
             then Content ("nvidia" ++ newline)
             else if (path =? "/sys/class/hwmon/hwmon2/temp1_input")%string
             then Content ("48000" ++ newline)
             else Absent)
          no_subprocess
          [].

(** What a cycle does after the duty has been applied: both RPM readings,
    then the sleep. *)
Definition auto_report : M (Z * Z) :=
  r1 <- fan1_rpm_read ;;
  r2 <- fan2_rpm_read ;;
  usleep (1000 * 1000) ;;;
  ret (r1, r2).

(** The bytes the four RPM register reads of a cycle send. *)
Definition rpm_bytes : list (Z * Z) :=
  (read_bytes EC_REG_FAN1_RPM_HI ++ read_bytes EC_REG_FAN1_RPM_LO ++
   read_bytes EC_REG_FAN2_RPM_HI ++ read_bytes EC_REG_FAN2_RPM_LO)%list.

(** A sensor hub with two GPU monitors: [hwmon0] is "amdgpu" and reads
    55000 millidegrees, [hwmon1] is "nvidia" and reads 70000.  The vendor
    tool is installed and would answer 90; the EC reports 40. *)
Definition world_two_gpus : World :=
  mkWorld (fun _ port => if port =? EC_SC then 0x01 else 40)
          0
          (fun path =>
             if (path =? "/sys/class/hwmon")%string
             then Some ["."; ".."; "hwmon0"; "hwmon1"] else None)
          (fun path =>
             if (path =? "/sys/class/hwmon/hwmon0/name")%string
             then Content ("amdgpu" ++ newline)
             else if (path =? "/sys/class/hwmon/hwmon0/temp1_input")%string
             then Content ("55000" ++ newline)
             else if (path =? "/sys/class/hwmon/hwmon1/name")%string
             then Content ("nvidia" ++ newline)
             else if (path =? "/sys/class/hwmon/hwmon1/temp1_input")%string
             then Content ("70000" ++ newline)
             else if (path =? "/usr/bin/nvidia-smi")%string
             then Content "ELF"
             else Absent)
          (fun command =>
             if (command =? nvidia_smi_cmd)%string
             then Some ("90" ++ newline) else None)
          [].

(* ================================================================== *)
(** * Properties *)

(** ** Arithmetic helpers *)

(** Side conditions "this value is an [int]". *)
Ltac int_range := unfold in_int, int_min, int_max; lia.

Lemma int32_small (z : Z) : in_int z -> int32 z = z.
Proof.
  unfold in_int, int_min, int_max, int32. intros Hz.
  rewrite Z.mod_small; lia.
Qed.

Lemma clamp_range (v lo hi : Z) : lo <= hi -> lo <= clamp v lo hi <= hi.
Proof.
  intros Hle. unfold clamp.
  destruct (v <? lo) eqn:E1; [lia|].
  destruct (hi <? v) eqn:E2; lia.
Qed.

Lemma clamp_id (v lo hi : Z) : lo <= v <= hi -> clamp v lo hi = v.
Proof.
  intros Hv. unfold clamp.
  destruct (v <? lo) eqn:E1; [lia|].
  destruct (hi <? v) eqn:E2; lia.
Qed.

Lemma in_zrange (lo z : Z) (n : nat) :
  lo <= z < lo + Z.of_nat n -> In z (zrange lo n).
Proof.
  intros Hz. unfold zrange. apply in_map_iff.
  exists (Z.to_nat (z - lo)). split; [lia|].
  apply in_seq. lia.
Qed.

(** A boolean property checked on every element of a range holds of every
    integer in the range. *)
Lemma forallb_zrange (P : Z -> bool) (lo : Z) (n : nat) :
  forallb P (zrange lo n) = true ->
  forall z, lo <= z < lo + Z.of_nat n -> P z = true.
Proof.
  intros Hall z Hz.
  rewrite forallb_forall in Hall. apply Hall, in_zrange, Hz.
Qed.

(** ** The duty curve *)

(** Between 41 and 79 degrees the double-precision interpolation is the
    exact line [2 * temp_c - 60]. *)
Lemma linear_duty_exact (temp_c : Z) :
  40 < temp_c < 80 -> linear_duty temp_c = 2 * temp_c - 60.
Proof.
  intros Ht. apply Z.eqb_eq.
  apply (forallb_zrange (fun t => linear_duty t =? 2 * t - 60) 41 39);
    [vm_compute; reflexivity | lia].
Qed.

Lemma target_hot (temp_c prev_pct : Z) :
  80 <= temp_c -> target_duty_from_temp_hot temp_c prev_pct = 100.
Proof.
  intros Ht. unfold target_duty_from_temp_hot, AUTO_MAX_TEMP_C.
  destruct (80 <=? temp_c) eqn:E; [reflexivity | lia].
Qed.

(** Below 80 degrees the function is one of four cases. *)
Lemma target_below_max (temp_c prev_pct : Z) :
  temp_c < 80 ->
  target_duty_from_temp_hot temp_c prev_pct =
    if (if prev_pct =? 0 then temp_c <=? 42 else temp_c <? 38) then 0
    else if temp_c <=? 40 then 20
    else 2 * temp_c - 60.
Proof.
  intros Ht. unfold target_duty_from_temp_hot.
  unfold AUTO_MAX_TEMP_C, AUTO_MIN_TEMP_C, MIN_DEADBAND_C, MIN_FAN_DUTY_PCT.
  destruct (80 <=? temp_c) eqn:E; [lia|].
  change (40 + 2) with 42. change (40 - 2) with 38.
  destruct (if prev_pct =? 0 then temp_c <=? 42 else temp_c <? 38); [reflexivity|].
  destruct (temp_c <=? 40) eqn:E40; [reflexivity|].
  apply linear_duty_exact. lia.
Qed.

Lemma target_range (temp_c prev_pct : Z) :
  target_duty_from_temp_hot temp_c prev_pct = 0 \/
  20 <= target_duty_from_temp_hot temp_c prev_pct <= 100.
Proof.
  destruct (Z_lt_le_dec temp_c 80) as [Hlt | Hge].
  - rewrite target_below_max by assumption.
    destruct (if prev_pct =? 0 then temp_c <=? 42 else temp_c <? 38);
      [left; reflexivity|].
    destruct (temp_c <=? 40) eqn:E; right; lia.
  - rewrite target_hot by assumption. right; lia.
Qed.

(** ** The duty conversions *)

(** On raw bytes the read conversion is the exact rounding. *)
Lemma duty_raw_to_pct_exact (raw : Z) :
  0 <= raw <= 255 -> duty_raw_to_pct raw = spec_raw_to_percent raw.
Proof.
  intros Hraw. apply Z.eqb_eq.
  apply (forallb_zrange (fun r => duty_raw_to_pct r =? spec_raw_to_percent r) 0 256);
    [vm_compute; reflexivity | lia].
Qed.

(** A duty byte is a byte, and a duty read back is a percentage. *)
Lemma duty_pct_to_raw_byte (pct : Z) : 0 <= duty_pct_to_raw pct <= 255.
Proof.
  unfold duty_pct_to_raw, uint8.
  pose proof (Z.mod_pos_bound
    (to_int (dadd (dmul (ddiv (of_int (clamp pct 0 100)) (of_int 100)) (of_int 255)) half))
    256). lia.
Qed.

Lemma duty_raw_to_pct_range (raw : Z) : 0 <= duty_raw_to_pct raw <= 100.
Proof. unfold duty_raw_to_pct. apply clamp_range. lia. Qed.

(** ** The ramp limiter *)

(** On percentages no step of [step_toward] leaves the [int] range, and the
    function is the clamped difference. *)
Lemma step_toward_pct (last_pct target_pct : Z) :
  0 <= last_pct <= 100 -> 0 <= target_pct <= 100 ->
  step_toward last_pct target_pct =
    last_pct + Z.max (- STEP_PCT) (Z.min STEP_PCT (target_pct - last_pct)).
Proof.
  intros Hl Ht. unfold step_toward, STEP_PCT.
  assert (Hd : int32 (target_pct - last_pct) = target_pct - last_pct)
    by (apply int32_small; int_range).
  rewrite Hd.
  assert (Hn : int32 (- (target_pct - last_pct)) = - (target_pct - last_pct))
    by (apply int32_small; int_range).
  rewrite Hn.
  destruct (0 <? target_pct - last_pct) eqn:E1.
  - destruct (target_pct - last_pct <? 2) eqn:E2;
      rewrite int32_small by int_range; lia.
  - destruct (target_pct - last_pct <? 0) eqn:E3; [|lia].
    destruct (- (target_pct - last_pct) <? 2) eqn:E4;
      rewrite int32_small by int_range; lia.
Qed.

Lemma step_toward_range (last_pct target_pct : Z) :
  0 <= last_pct <= 100 -> 0 <= target_pct <= 100 ->
  0 <= step_toward last_pct target_pct <= 100.
Proof.
  intros Hl Ht. rewrite step_toward_pct by assumption. unfold STEP_PCT. lia.
Qed.

(** ** One cycle of the auto loop *)

(** Whatever the writes do, [last] leaves [auto_apply] equal to [newduty]. *)
Lemma auto_apply_last (newduty last : Z) (w : World) :
  fst (auto_apply newduty last w) = newduty.
Proof.
  unfold auto_apply.
  destruct (newduty =? last) eqn:E; simpl.
  - apply Z.eqb_eq in E. congruence.
  - unfold bind.
    destruct (fan1_duty_write newduty w) as [r1 w1].
    destruct (fan2_duty_write newduty w1) as [r2 w2].
    reflexivity.
Qed.

(** The hot temperature of a cycle is the one [auto_sense] finds; the duty
    printed and the value [last] takes are both [auto_new_duty] of it. *)
Lemma auto_cycle_duty (last : Z) (w : World) :
  let th := snd (fst (auto_sense w)) in
  let r := fst (auto_cycle last w) in
  st_hot (snd r) = th /\
  st_duty (snd r) = auto_new_duty th last /\
  fst r = auto_new_duty th last.
Proof.
  unfold auto_cycle, bind.
  destruct (auto_sense w) as [[[tc tg] th] w1]. cbn [fst snd].
  pose proof (auto_apply_last (auto_new_duty th last) last w1) as Hap.
  destruct (auto_apply (auto_new_duty th last) last w1) as [last' w2].
  destruct (fan1_rpm_read w2) as [r1 w3].
  destruct (fan2_rpm_read w3) as [r2 w4].
  destruct (usleep (1000 * 1000) w4) as [u w5].
  cbn in *. subst last'. auto.
Qed.

Lemma auto_new_duty_hot (th last : Z) : 80 <= th -> auto_new_duty th last = 100.
Proof.
  intros Hth. unfold auto_new_duty, AUTO_MAX_TEMP_C.
  destruct (80 <=? th) eqn:E; [reflexivity | lia].
Qed.

Lemma auto_new_duty_ramp (th last : Z) :
  th < 80 -> 0 <= last <= 100 ->
  auto_new_duty th last = step_toward last (target_duty_from_temp_hot th last).
Proof.
  intros Hth Hl. unfold auto_new_duty, AUTO_MAX_TEMP_C.
  destruct (80 <=? th) eqn:E; [lia|].
  apply clamp_id, step_toward_range; [assumption|].
  destruct (target_range th last); lia.
Qed.

(** ** The handshake *)

Lemma outbs_app (a b : list Event) :
  outbs (a ++ b)%list = (outbs a ++ outbs b)%list.
Proof.
  induction a as [|e a IH]; [reflexivity|].
  destruct e; simpl; rewrite IH; reflexivity.
Qed.

Lemma inb_outbs (port : Z) (w : World) :
  outbs (trace (snd (inb port w))) = outbs (trace w).
Proof. simpl. rewrite outbs_app. simpl. apply app_nil_r. Qed.

Lemma usleep_outbs (usec : Z) (w : World) :
  outbs (trace (snd (usleep usec w))) = outbs (trace w).
Proof. simpl. rewrite outbs_app. simpl. apply app_nil_r. Qed.

Lemma outb_outbs (value port : Z) (w : World) :
  outbs (trace (snd (outb value port w))) =
  (outbs (trace w) ++ [(uint8 value, port)])%list.
Proof. simpl. rewrite outbs_app. reflexivity. Qed.

Section Wait.

(** One wait: the port polled, the flag bit and the value waited for. *)
Variables port flag value : Z.

(** A wait reads and sleeps, and writes to no port. *)
Lemma ec_io_wait_loop_outbs (left : nat) :
  forall data w,
    outbs (trace (snd (ec_io_wait_loop left port flag value data w))) =
    outbs (trace w).
Proof.
  induction left as [|left IH]; intros data w; simpl.
  - destruct (flag_differs data flag value); reflexivity.
  - destruct (flag_differs data flag value); [|reflexivity].
    unfold bind. cbn [usleep].
    destruct (inb port (log (EvUsleep 1000) w)) as [data' w'] eqn:Einb.
    rewrite IH.
    change w' with (snd (data', w')). rewrite <- Einb, inb_outbs.
    apply (usleep_outbs 1000 w).
Qed.

Lemma ec_io_wait_outbs (w : World) :
  outbs (trace (snd (ec_io_wait port flag value w))) = outbs (trace w).
Proof.
  unfold ec_io_wait, bind.
  destruct (inb port w) as [data w'] eqn:Einb.
  rewrite ec_io_wait_loop_outbs.
  change w' with (snd (data, w')). rewrite <- Einb. apply inb_outbs.
Qed.

(** A wait returns 0 or -1. *)
Lemma ec_io_wait_loop_result (left : nat) :
  forall data w,
    fst (ec_io_wait_loop left port flag value data w) = 0 \/
    fst (ec_io_wait_loop left port flag value data w) = -1.
Proof.
  induction left as [|left IH]; intros data w; simpl.
  - destruct (flag_differs data flag value); right; reflexivity.
  - destruct (flag_differs data flag value); [|left; reflexivity].
    unfold bind. cbn [usleep].
    destruct (inb port (log (EvUsleep 1000) w)) as [data' w'].
    apply IH.
Qed.

Lemma ec_io_wait_result (w : World) :
  fst (ec_io_wait port flag value w) = 0 \/
  fst (ec_io_wait port flag value w) = -1.
Proof.
  unfold ec_io_wait, bind.
  destruct (inb port w) as [data w']. apply ec_io_wait_loop_result.
Qed.


Lemma inb_answer (w : World) :
  fst (inb port w) = answer w port 0 /\
  forall k, answer (snd (inb port w)) port k = answer w port (S k).
Proof.
  unfold answer. simpl. split.
  - rewrite Nat.add_0_r. reflexivity.
  - intros k. f_equal. f_equal. lia.
Qed.

Lemma usleep_answer (usec : Z) (w : World) (k : nat) :
  answer (snd (usleep usec w)) port k = answer w port k.
Proof. reflexivity. Qed.

(** The loop returns 0 exactly when one of the first [left] bytes it
    examines shows the flag at the value waited for. *)
Lemma ec_io_wait_loop_ok (left : nat) :
  forall data w,
    fst (ec_io_wait_loop left port flag value data w) = 0 <->
    exists j, (j < left)%nat /\
              flag_differs (examined w port data j) flag value = false.
Proof.
  induction left as [|left IH]; intros data w; simpl.
  - destruct (flag_differs data flag value); simpl;
      (split; [discriminate | intros (j & Hj & _); lia]).
  - destruct (flag_differs data flag value) eqn:Ed.
    + unfold bind. cbn [usleep].
      assert (Hd : fst (inb port (log (EvUsleep 1000) w)) = answer w port 0)
        by exact (proj1 (inb_answer (log (EvUsleep 1000) w))).
      assert (Hans : forall k, answer (snd (inb port (log (EvUsleep 1000) w))) port k
                               = answer w port (S k))
        by exact (proj2 (inb_answer (log (EvUsleep 1000) w))).
      destruct (inb port (log (EvUsleep 1000) w)) as [data' w'].
      cbn [fst snd] in Hd, Hans.
      rewrite IH. split.
      * intros (j & Hj & Hok). exists (S j). split; [lia|].
        destruct j as [|k]; simpl in *.
        -- rewrite <- Hd. exact Hok.
        -- rewrite <- Hans. exact Hok.
      * intros (j & Hj & Hok). destruct j as [|j]; simpl in Hok.
        -- congruence.
        -- exists j. split; [lia|].
           destruct j as [|k]; simpl.
           ++ rewrite Hd. exact Hok.
           ++ rewrite Hans. exact Hok.
    + simpl. split; [|reflexivity].
      intros _. exists 0%nat. split; [lia | exact Ed].
Qed.

(** [ec_io_wait] returns 0 exactly when one of the first 100 bytes read from
    the port shows the flag at the value waited for; a match at the 101st
    read comes too late. *)
Lemma ec_io_wait_ok (w : World) :
  fst (ec_io_wait port flag value w) = 0 <->
  exists j, (j < 100)%nat /\ flag_differs (answer w port j) flag value = false.
Proof.
  unfold ec_io_wait, bind.
  pose proof (inb_answer w) as [Hd Hans].
  destruct (inb port w) as [data w']. cbn [fst snd] in Hd, Hans.
  rewrite ec_io_wait_loop_ok. split; intros (j & Hj & Hok); exists j;
    (split; [exact Hj|]); destruct j as [|k]; simpl in *.
  - rewrite <- Hd. exact Hok.
  - rewrite <- Hans. exact Hok.
  - rewrite Hd. exact Hok.
  - rewrite Hans. exact Hok.
Qed.

End Wait.

Lemma ec_io_wait_timeout (port flag value : Z) (w : World) :
  fst (ec_io_wait port flag value w) =
  if wait_times_out port flag value w then -1 else 0.
Proof.
  unfold wait_times_out.
  destruct (existsb _ (seq 0 100)) eqn:Ex; simpl.
  - apply ec_io_wait_ok. apply existsb_exists in Ex.
    destruct Ex as (j & Hin & Hj). apply in_seq in Hin.
    exists j. split; [lia|]. apply negb_true_iff in Hj. exact Hj.
  - destruct (ec_io_wait_result port flag value w) as [H0 | Hm]; [|exact Hm].
    exfalso. apply ec_io_wait_ok in H0. destruct H0 as (j & Hj & Hok).
    assert (Ht : existsb (fun j => negb (flag_differs (answer w port j) flag value))
                         (seq 0 100) = true).
    { apply existsb_exists. exists j. split; [apply in_seq; lia|].
      rewrite Hok. reflexivity. }
    congruence.
Qed.

(** The result of [ec_io_do] in terms of its four waits, each taken in the
    world the sequence has reached. *)
Lemma ec_io_do_steps (cmd port value : Z) (w : World) :
  let w1 := snd (ec_io_wait EC_SC IBF 0 w) in
  let w2 := snd (ec_io_wait EC_SC IBF 0 (snd (outb cmd EC_SC w1))) in
  let w3 := snd (ec_io_wait EC_SC IBF 0 (snd (outb port EC_DATA w2))) in
  let w4 := snd (ec_io_wait EC_SC IBF 0 (snd (outb value EC_DATA w3))) in
  ec_io_do cmd port value w =
    if wait_times_out EC_SC IBF 0 w then (-1, w1)
    else if wait_times_out EC_SC IBF 0 (snd (outb cmd EC_SC w1)) then (-1, w2)
    else if wait_times_out EC_SC IBF 0 (snd (outb port EC_DATA w2)) then (-1, w3)
    else if wait_times_out EC_SC IBF 0 (snd (outb value EC_DATA w3)) then (-1, w4)
    else (0, w4).
Proof.
  intros w1 w2 w3 w4. unfold ec_io_do, bind.
  pose proof (ec_io_wait_timeout EC_SC IBF 0 w) as H1. fold w1.
  destruct (ec_io_wait EC_SC IBF 0 w) as [r1 w1'] eqn:E1.
  cbn [fst snd] in H1. subst w1. cbn [snd]. rewrite H1.
  destruct (wait_times_out EC_SC IBF 0 w); [reflexivity|]. cbn [negb Z.eqb].
  cbn [outb].
  pose proof (ec_io_wait_timeout EC_SC IBF 0 (log (EvOutb (uint8 cmd) EC_SC) w1')) as H2.
  subst w2. cbn [outb snd] in *.
  destruct (ec_io_wait EC_SC IBF 0 (log (EvOutb (uint8 cmd) EC_SC) w1')) as [r2 w2'].
  cbn [fst snd] in *. rewrite H2.
  destruct (wait_times_out EC_SC IBF 0 (log (EvOutb (uint8 cmd) EC_SC) w1'));
    [reflexivity|]. cbn [negb Z.eqb].
  pose proof (ec_io_wait_timeout EC_SC IBF 0 (log (EvOutb (uint8 port) EC_DATA) w2')) as H3.
  subst w3. cbn [outb snd] in *.
  destruct (ec_io_wait EC_SC IBF 0 (log (EvOutb (uint8 port) EC_DATA) w2')) as [r3 w3'].
  cbn [fst snd] in *. rewrite H3.
  destruct (wait_times_out EC_SC IBF 0 (log (EvOutb (uint8 port) EC_DATA) w2'));
    [reflexivity|]. cbn [negb Z.eqb].
  pose proof (ec_io_wait_timeout EC_SC IBF 0 (log (EvOutb (uint8 value) EC_DATA) w3')) as H4.
  subst w4. cbn [outb snd] in *.
  destruct (ec_io_wait EC_SC IBF 0 (log (EvOutb (uint8 value) EC_DATA) w3')) as [r4 w4'].
  cbn [fst snd] in *. rewrite H4.
  destruct (wait_times_out EC_SC IBF 0 (log (EvOutb (uint8 value) EC_DATA) w3'));
    reflexivity.
Qed.

(** Result and bytes sent by [ec_io_do], by the first wait that times out. *)
Lemma ec_io_do_outcome (cmd port value : Z) (w : World) :
  let w1 := snd (ec_io_wait EC_SC IBF 0 w) in
  let w2 := snd (ec_io_wait EC_SC IBF 0 (snd (outb cmd EC_SC w1))) in
  let w3 := snd (ec_io_wait EC_SC IBF 0 (snd (outb port EC_DATA w2))) in
  let t1 := wait_times_out EC_SC IBF 0 w in
  let t2 := wait_times_out EC_SC IBF 0 (snd (outb cmd EC_SC w1)) in
  let t3 := wait_times_out EC_SC IBF 0 (snd (outb port EC_DATA w2)) in
  let t4 := wait_times_out EC_SC IBF 0 (snd (outb value EC_DATA w3)) in
  fst (ec_io_do cmd port value w) = (if t1 || t2 || t3 || t4 then -1 else 0) /\
  outbs (trace (snd (ec_io_do cmd port value w))) =
  (outbs (trace w) ++
   if t1 then [] else
     (uint8 cmd, EC_SC) ::
     if t2 then [] else
       (uint8 port, EC_DATA) ::
       if t3 then [] else [(uint8 value, EC_DATA)])%list.
Proof.
  intros w1 w2 w3 t1 t2 t3 t4.
  pose (w4 := snd (ec_io_wait EC_SC IBF 0 (snd (outb value EC_DATA w3)))).
  assert (S1 : outbs (trace w1) = outbs (trace w))
    by apply ec_io_wait_outbs.
  assert (S2 : outbs (trace w2) = (outbs (trace w) ++ [(uint8 cmd, EC_SC)])%list).
  { unfold w2. rewrite ec_io_wait_outbs, outb_outbs, S1. reflexivity. }
  assert (S3 : outbs (trace w3) =
               (outbs (trace w) ++ [(uint8 cmd, EC_SC); (uint8 port, EC_DATA)])%list).
  { unfold w3. rewrite ec_io_wait_outbs, outb_outbs, S2, <- app_assoc.
    reflexivity. }
  assert (S4 : outbs (trace w4) =
               (outbs (trace w) ++
                [(uint8 cmd, EC_SC); (uint8 port, EC_DATA); (uint8 value, EC_DATA)])%list).
  { unfold w4. rewrite ec_io_wait_outbs, outb_outbs, S3, <- app_assoc.
    reflexivity. }
  assert (Hs : ec_io_do cmd port value w =
               if t1 then (-1, w1) else if t2 then (-1, w2)
               else if t3 then (-1, w3) else if t4 then (-1, w4) else (0, w4))
    by apply ec_io_do_steps.
  clearbody w4 t4 t3 t2 t1. clearbody w3. clearbody w2. clearbody w1.
  rewrite Hs.
  destruct t1; [split; [reflexivity | rewrite app_nil_r; exact S1]|].
  destruct t2; [split; [reflexivity | exact S2]|].
  destruct t3; [split; [reflexivity | exact S3]|].
  destruct t4; (split; [reflexivity | exact S4]).
Qed.

(** A write sequence that reports success has sent its three bytes. *)
Lemma ec_io_do_sent (cmd port value : Z) (w : World) :
  fst (ec_io_do cmd port value w) = 0 ->
  outbs (trace (snd (ec_io_do cmd port value w))) =
  (outbs (trace w) ++
   [(uint8 cmd, EC_SC); (uint8 port, EC_DATA); (uint8 value, EC_DATA)])%list.
Proof.
  destruct (ec_io_do_outcome cmd port value w) as [Hr Hsent].
  cbv zeta in Hr, Hsent. rewrite Hr, Hsent.
  destruct (wait_times_out EC_SC IBF 0 w); [discriminate|].
  destruct (wait_times_out EC_SC IBF 0 _); [discriminate|].
  destruct (wait_times_out EC_SC IBF 0 _); [discriminate|].
  reflexivity.
Qed.

(** ** The sensor scan *)

Lemma adds_only_ret {A} (ok : Event -> bool) (a : A) : adds_only ok (ret a).
Proof.
  intros w. exists []. simpl. rewrite app_nil_r. auto.
Qed.

Lemma adds_only_bind {A B} (ok : Event -> bool) (m : M A) (k : A -> M B) :
  adds_only ok m -> (forall a, adds_only ok (k a)) -> adds_only ok (bind m k).
Proof.
  intros Hm Hk w. unfold bind.
  destruct (Hm w) as (e1 & T1 & O1 & F1 & D1 & P1).
  destruct (m w) as [a w1]. cbn [snd] in *.
  destruct (Hk a w1) as (e2 & T2 & O2 & F2 & D2 & P2).
  exists (e1 ++ e2)%list.
  rewrite T2, T1, <- app_assoc, forallb_app, O1, O2, F2, F1, D2, D1, P2, P1.
  auto.
Qed.

Lemma adds_only_log {A} (ok : Event -> bool) (e : Event) (f : World -> A) :
  ok e = true -> adds_only ok (fun w => (f w, log e w)).
Proof.
  intros He w. exists [e]. simpl. rewrite He. auto.
Qed.

(** Every path the scan builds lies under the sensor hub. *)
Lemma hub_path_not_vendor (d_name : string) (i : nat) :
  (temp_path (hwmon_base d_name) i =? nvidia_smi_path)%string = false.
Proof. reflexivity. Qed.

Lemma read_int_from_file_adds (path : string) :
  adds_only hub_event (read_int_from_file path).
Proof.
  unfold read_int_from_file. apply adds_only_bind.
  - unfold open_read. apply adds_only_log. reflexivity.
  - intros [[|c s]|]; apply adds_only_ret.
Qed.

Lemma scan_temps_adds (d_name : string) (indices : list nat) :
  forall best,
    adds_only hub_event
      (scan_temps (hwmon_base d_name) indices best).
Proof.
  induction indices as [|i rest IH]; intros best; cbn [scan_temps].
  - apply adds_only_ret.
  - apply adds_only_bind.
    + unfold path_exists. apply adds_only_log.
      unfold hub_event, vendor_event, port_event.
      rewrite hub_path_not_vendor. reflexivity.
    + intros present. destruct present; cbn [negb]; [|apply IH].
      apply adds_only_bind; [apply read_int_from_file_adds|].
      intros milli. destruct (0 <? milli); apply IH.
Qed.

Lemma scan_hwmon_adds (entries : list string) :
  forall best, adds_only hub_event (scan_hwmon entries best).
Proof.
  induction entries as [|d_name rest IH]; intros best; cbn [scan_hwmon].
  - apply adds_only_ret.
  - destruct (starts_with "hwmon" d_name); cbn [negb]; [|apply IH].
    apply adds_only_bind.
    + unfold open_read. apply adds_only_log. reflexivity.
    + intros [[|c s]|]; try apply IH.
      destruct (gpu_driver_name (chomp (String c s))); [|apply IH].
      apply adds_only_bind; [apply scan_temps_adds | intros; apply IH].
Qed.

(** [gpu_temp_sysfs] neither looks for the vendor tool nor touches a port. *)
Lemma gpu_temp_sysfs_adds : adds_only hub_event gpu_temp_sysfs.
Proof.
  unfold gpu_temp_sysfs. apply adds_only_bind.
  - unfold opendir. apply adds_only_log. reflexivity.
  - intros [entries|]; [apply scan_hwmon_adds | apply adds_only_ret].
Qed.

(** [gpu_temp_nvidia_smi] touches no port. *)
Lemma gpu_temp_nvidia_smi_adds :
  adds_only (fun e => negb (port_event e)) gpu_temp_nvidia_smi.
Proof.
  unfold gpu_temp_nvidia_smi. apply adds_only_bind.
  - unfold path_exists. apply adds_only_log. reflexivity.
  - intros present. destruct present; cbn [negb]; [|apply adds_only_ret].
    apply adds_only_bind.
    + unfold popen. apply adds_only_log. reflexivity.
    + intros [out|]; [|apply adds_only_ret].
      destruct (fgets 64 out); [|apply adds_only_ret].
      destruct ((0 <? atoi s) && (atoi s <? 130)); apply adds_only_ret.
Qed.

(** The hottest value so far never decreases. *)
Lemma scan_temps_mono (base : string) (indices : list nat) :
  forall best w, best <= fst (scan_temps base indices best w).
Proof.
  induction indices as [|i rest IH]; intros best w; cbn [scan_temps].
  - simpl. lia.
  - unfold bind.
    destruct (path_exists (temp_path base i) w) as [present w1].
    destruct present; cbn [negb]; [|apply IH].
    destruct (read_int_from_file (temp_path base i) w1) as [milli w2].
    destruct (0 <? milli); [|apply IH].
    destruct (best <? idiv milli 1000) eqn:E; [|apply IH].
    etransitivity; [|apply IH]. lia.
Qed.

Lemma scan_hwmon_mono (entries : list string) :
  forall best w, best <= fst (scan_hwmon entries best w).
Proof.
  induction entries as [|d_name rest IH]; intros best w; cbn [scan_hwmon].
  - simpl. lia.
  - destruct (starts_with "hwmon" d_name); cbn [negb]; [|apply IH].
    unfold bind.
    destruct (open_read (name_path (hwmon_base d_name)) 64 w) as [[[|c s]|] w1];
      try apply IH.
    destruct (gpu_driver_name (chomp (String c s))); [|apply IH].
    pose proof (scan_temps_mono (hwmon_base d_name) (seq 1 10) best w1) as Hm.
    destruct (scan_temps (hwmon_base d_name) (seq 1 10) best w1) as [best' w2].
    cbn [fst] in Hm. etransitivity; [exact Hm | apply IH].
Qed.

(** A positive reading among the files visited bounds the result from
    below. *)
Lemma scan_temps_finds (base : string) (indices : list nat) (i : nat)
      (bytes : string) :
  forall best w,
    In i indices ->
    files w (temp_path base i) = Content bytes ->
    0 < atoi (substring 0 63 bytes) ->
    idiv (atoi (substring 0 63 bytes)) 1000 <= fst (scan_temps base indices best w).
Proof.
  induction indices as [|j rest IH]; intros best w Hin Hfile Hpos;
    [contradiction|].
  cbn [scan_temps]. unfold bind, path_exists.
  destruct (Nat.eq_dec j i) as [-> | Hne].
  - rewrite Hfile. cbn [negb].
    unfold read_int_from_file, bind, open_read. cbn [files log].
    rewrite Hfile. change (64 - 1)%nat with 63%nat.
    destruct (substring 0 63 bytes) as [|c s] eqn:Eb;
      [vm_compute in Hpos; discriminate|].
    cbn [ret]. rewrite (proj2 (Z.ltb_lt _ _) Hpos).
    etransitivity; [|apply scan_temps_mono].
    destruct (best <? idiv (atoi (String c s)) 1000) eqn:E; lia.
  - destruct Hin as [Heq | Hin]; [contradiction|].
    destruct (files w (temp_path base j)); cbn [negb];
      try (apply IH; assumption);
      match goal with
      | |- context [read_int_from_file ?p ?w0] =>
          destruct (read_int_from_file p w0) as [milli w2] eqn:Er;
          assert (Hw2 : files w2 = files w)
            by (destruct (read_int_from_file_adds p w0) as (_ & _ & _ & F & _);
                rewrite Er in F; exact F)
      end;
      (destruct (0 <? milli); apply IH; try assumption; rewrite Hw2; assumption).
Qed.

(** One directory entry: the scan goes on with the remaining entries, a
    value at least as hot, and the same files. *)
Lemma scan_hwmon_cons (d_name : string) (rest : list string) (best : Z)
      (w : World) :
  exists best' w',
    scan_hwmon (d_name :: rest) best w = scan_hwmon rest best' w' /\
    best <= best' /\ files w' = files w.
Proof.
  cbn [scan_hwmon].
  destruct (starts_with "hwmon" d_name); cbn [negb];
    [|exists best, w; repeat split; lia].
  unfold bind, open_read.
  set (w1 := log (EvOpen (name_path (hwmon_base d_name))) w).
  destruct (files w (name_path (hwmon_base d_name))) as [| |bytes];
    try (exists best, w1; repeat split; lia).
  destruct (substring 0 (64 - 1) bytes) as [|c s];
    [exists best, w1; repeat split; lia|].
  destruct (gpu_driver_name (chomp (String c s)));
    [|exists best, w1; repeat split; lia].
  pose proof (scan_temps_mono (hwmon_base d_name) (seq 1 10) best w1) as Hm.
  destruct (scan_temps_adds d_name (seq 1 10) best w1) as (_ & _ & _ & F & _).
  destruct (scan_temps (hwmon_base d_name) (seq 1 10) best w1) as [best' w2].
  exists best', w2. repeat split; assumption.
Qed.

(** A matching monitor with a positive reading bounds the scan from below. *)
Lemma scan_hwmon_finds (entries : list string) (d_name : string) (i : nat)
      (namebytes bytes : string) :
  forall best w,
    In d_name entries ->
    starts_with "hwmon" d_name = true ->
    files w (name_path (hwmon_base d_name)) = Content namebytes ->
    gpu_driver_name (chomp (substring 0 63 namebytes)) = true ->
    In i (seq 1 10) ->
    files w (temp_path (hwmon_base d_name) i) = Content bytes ->
    0 < atoi (substring 0 63 bytes) ->
    idiv (atoi (substring 0 63 bytes)) 1000 <= fst (scan_hwmon entries best w).
Proof.
  induction entries as [|e rest IH]; intros best w Hin Hpre Hname Hdrv Hi Hfile Hpos;
    [contradiction|].
  destruct (string_dec e d_name) as [-> | Hne].
  - cbn [scan_hwmon]. rewrite Hpre. cbn [negb].
    unfold bind, open_read. rewrite Hname. change (64 - 1)%nat with 63%nat.
    destruct (substring 0 63 namebytes) as [|c s] eqn:En;
      [vm_compute in Hdrv; discriminate|].
    rewrite Hdrv.
    set (w1 := log (EvOpen (name_path (hwmon_base d_name))) w).
    pose proof (scan_temps_finds (hwmon_base d_name) (seq 1 10) i bytes best w1
                  Hi Hfile Hpos) as Hf.
    destruct (scan_temps (hwmon_base d_name) (seq 1 10) best w1) as [best' w2].
    cbn [fst] in Hf. etransitivity; [exact Hf | apply scan_hwmon_mono].
  - destruct Hin as [Heq | Hin]; [contradiction|].
    destruct (scan_hwmon_cons e rest best w) as (best' & w' & Hstep & _ & F).
    rewrite Hstep. apply IH; try assumption; rewrite F; assumption.
Qed.

Lemma gpu_temp_sysfs_finds (w : World) (entries : list string)
      (d_name : string) (i : nat) (namebytes bytes : string) :
  dir_entries w hwmon_dir = Some entries ->
  In d_name entries ->
  starts_with "hwmon" d_name = true ->
  files w (name_path (hwmon_base d_name)) = Content namebytes ->
  gpu_driver_name (chomp (substring 0 63 namebytes)) = true ->
  In i (seq 1 10) ->
  files w (temp_path (hwmon_base d_name) i) = Content bytes ->
  0 < atoi (substring 0 63 bytes) ->
  idiv (atoi (substring 0 63 bytes)) 1000 <= fst (gpu_temp_sysfs w).
Proof.
  intros Hdir Hin Hpre Hname Hdrv Hi Hfile Hpos.
  unfold gpu_temp_sysfs, bind, opendir. rewrite Hdir.
  apply (scan_hwmon_finds entries d_name i namebytes bytes); assumption.
Qed.

(** ** Source order *)

(** [gpu_temp] in terms of its three sources. *)
Lemma gpu_temp_steps (w : World) :
  let t1 := fst (gpu_temp_sysfs w) in
  let w1 := snd (gpu_temp_sysfs w) in
  let t2 := fst (gpu_temp_nvidia_smi w1) in
  let w2 := snd (gpu_temp_nvidia_smi w1) in
  gpu_temp w =
    if 0 <? t1 then (t1, w1)
    else if 0 <? t2 then (t2, w2)
    else ec_io_read EC_REG_GPU_TEMP w2.
Proof.
  unfold gpu_temp, bind.
  destruct (gpu_temp_sysfs w) as [t1 w1]. cbn [fst snd].
  destruct (0 <? t1); [reflexivity|].
  destruct (gpu_temp_nvidia_smi w1) as [t2 w2]. cbn [fst snd].
  destruct (0 <? t2); reflexivity.
Qed.

Lemma hub_events_quiet (evs : list Event) :
  forallb hub_event evs = true ->
  existsb vendor_event evs = false /\ existsb port_event evs = false.
Proof.
  induction evs as [|e evs IH]; intros H; [split; reflexivity|].
  simpl in H. apply andb_true_iff in H. destruct H as [He Hrest].
  unfold hub_event in He. apply andb_true_iff in He. destruct He as [Hv Hp].
  apply negb_true_iff in Hv, Hp.
  destruct (IH Hrest) as [IHv IHp].
  simpl. rewrite Hv, Hp, IHv, IHp. split; reflexivity.
Qed.

(* ================================================================== *)
(** * The claims *)

(** C1 (safety override).  For every temperature [hot >= 80] and every
    previous duty [prev] in [[0,100]], [target_duty_from_temp_hot] returns
    exactly 100, the duty chosen by the cycle is 100 without passing through
    [step_toward], and a cycle of the auto loop that senses [hot] prints the
    duty 100 and leaves [last] at 100. *)
Theorem safety_override (hot prev : Z) :
  80 <= hot -> 0 <= prev <= 100 ->
  target_duty_from_temp_hot hot prev = 100 /\
  auto_new_duty hot prev = 100 /\
  forall w : World,
    st_hot (snd (fst (auto_cycle prev w))) = hot ->
    st_duty (snd (fst (auto_cycle prev w))) = 100 /\
    fst (fst (auto_cycle prev w)) = 100.
Proof.
  intros Hhot Hprev. split; [apply target_hot; assumption|].
  split; [apply auto_new_duty_hot; assumption|].
  intros w Hsensed.
  destruct (auto_cycle_duty prev w) as (Hh & Hd & Hl).
  rewrite Hh in Hsensed. rewrite Hd, Hl, Hsensed.
  split; apply auto_new_duty_hot; assumption.
Qed.

(** C3 (hysteresis).  With [prev_pct = 0] the target stays 0 for every
    [hot <= 42] and is positive at 43; with [prev_pct = 20] the target is 20
    at 39 and 0 at 37. *)
Theorem hysteresis_band :
  (forall hot, hot <= 42 -> target_duty_from_temp_hot hot 0 = 0) /\
  0 < target_duty_from_temp_hot 43 0 /\
  target_duty_from_temp_hot 41 0 = 0 /\
  target_duty_from_temp_hot 39 20 = 20 /\
  target_duty_from_temp_hot 37 20 = 0.
Proof.
  split.
  - intros hot Hhot. rewrite target_below_max by lia.
    change (0 =? 0) with true. cbv iota.
    destruct (hot <=? 42) eqn:E; [reflexivity | lia].
  - repeat split; vm_compute; reflexivity.
Qed.

(** C4 (ramp limiting).  For [last_pct] and [target_pct] in [[0,100]],
    [step_toward] moves [last_pct] toward [target_pct]: by at most 2 points,
    never past the target, and by at least one point unless it is already
    there.  [step_toward 20 100 = 22] and [step_toward 20 21 = 21]. *)
Theorem step_toward_bounded (last_pct target_pct : Z) :
  0 <= last_pct <= 100 -> 0 <= target_pct <= 100 ->
  Z.abs (step_toward last_pct target_pct - last_pct) <= 2 /\
  (last_pct <= target_pct ->
     last_pct <= step_toward last_pct target_pct <= target_pct) /\
  (target_pct <= last_pct ->
     target_pct <= step_toward last_pct target_pct <= last_pct) /\
  (last_pct <> target_pct -> step_toward last_pct target_pct <> last_pct) /\
  step_toward 20 100 = 22 /\
  step_toward 20 21 = 21.
Proof.
  intros Hl Ht. rewrite step_toward_pct by assumption. unfold STEP_PCT.
  repeat split; try lia; vm_compute; reflexivity.
Qed.

(** C5 (linear region).  For every [hot] with [40 < hot < 80] and every
    previous duty for which the hysteresis branch does not return 0, the
    target computed in double precision is the specification's value: the
    line from (40, 20) to (80, 100) over the rationals, rounded to nearest
    and clamped to [[0,100]].  At 60 degrees with previous duty 20 it is 60. *)
Theorem linear_region (hot prev : Z) :
  40 < hot < 80 ->
  ~ (prev = 0 /\ hot <= 42) ->
  target_duty_from_temp_hot hot prev = spec_linear_duty hot /\
  target_duty_from_temp_hot 60 20 = 60.
Proof.
  intros Hhot Hhyst. split; [|vm_compute; reflexivity].
  rewrite target_below_max by lia.
  assert (Hb : (if prev =? 0 then hot <=? 42 else hot <? 38) = false).
  { destruct (prev =? 0) eqn:E0.
    - apply Z.eqb_eq in E0. destruct (hot <=? 42) eqn:E; [|reflexivity].
      exfalso. apply Hhyst. lia.
    - destruct (hot <? 38) eqn:E; [lia | reflexivity]. }
  rewrite Hb.
  destruct (hot <=? 40) eqn:E40; [lia|].
  symmetry. apply Z.eqb_eq.
  apply (forallb_zrange (fun t => spec_linear_duty t =? 2 * t - 60) 41 39);
    [vm_compute; reflexivity | lia].
Qed.

(** C6 (duty conversion round trip).  For every [pct] in [[0,100]], converting
    to raw, back to percent and to raw again gives the first raw byte; on
    that range the write conversion is [round(pct/100 * 255)], on raw bytes
    the read conversion is [round(raw/255 * 100)] clamped to [[0,100]]. *)
Theorem duty_round_trip (pct : Z) :
  0 <= pct <= 100 ->
  duty_pct_to_raw (duty_raw_to_pct (duty_pct_to_raw pct)) = duty_pct_to_raw pct /\
  duty_pct_to_raw pct = spec_percent_to_raw pct /\
  duty_raw_to_pct (duty_pct_to_raw pct) = spec_raw_to_percent (duty_pct_to_raw pct).
Proof.
  intros Hpct.
  pose (chk := fun p =>
    (duty_pct_to_raw (duty_raw_to_pct (duty_pct_to_raw p)) =? duty_pct_to_raw p)
    && (duty_pct_to_raw p =? spec_percent_to_raw p)
    && (duty_raw_to_pct (duty_pct_to_raw p)
        =? spec_raw_to_percent (duty_pct_to_raw p))).
  assert (H : chk pct = true)
    by (apply (forallb_zrange chk 0 101); [vm_compute; reflexivity | lia]).
  unfold chk in H.
  apply andb_true_iff in H. destruct H as [H H3].
  apply andb_true_iff in H. destruct H as [H1 H2].
  rewrite Z.eqb_eq in H1, H2, H3. auto.
Qed.

(** C7 (RPM decoding).  For bytes [hi], [lo] in [[0,255]], with
    [raw16 = (hi << 8) | lo]: [rpm_from_raw] is [2156220 / raw16] when
    [raw16 > 0] and 0 when [raw16 = 0]; it is never negative, and
    [rpm_from_raw 0 0 = 0]. *)
Theorem rpm_from_raw_guarded (hi lo : Z) :
  0 <= hi <= 255 -> 0 <= lo <= 255 ->
  let raw16 := Z.lor (Z.shiftl hi 8) lo in
  (0 < raw16 -> rpm_from_raw hi lo = 2156220 / raw16) /\
  (raw16 = 0 -> rpm_from_raw hi lo = 0) /\
  0 <= rpm_from_raw hi lo /\
  rpm_from_raw 0 0 = 0.
Proof.
  intros Hhi Hlo raw16.
  assert (Hsh : int32 (Z.shiftl hi 8) = Z.shiftl hi 8).
  { apply int32_small. rewrite Z.shiftl_mul_pow2 by lia. int_range. }
  assert (Hnn : 0 <= raw16).
  { apply Z.lor_nonneg. split; [apply Z.shiftl_nonneg|]; lia. }
  assert (Hq : 0 < raw16 -> idiv 2156220 raw16 = 2156220 / raw16).
  { intros Hpos. unfold idiv. rewrite Z.quot_div_nonneg by lia.
    apply int32_small.
    assert (0 <= 2156220 / raw16) by (apply Z.div_pos; lia).
    assert (2156220 / raw16 <= 2156220)
      by (apply Z.div_le_upper_bound; nia).
    int_range. }
  unfold rpm_from_raw. rewrite Hsh. fold raw16.
  repeat split.
  - intros Hpos. destruct (0 <? raw16) eqn:E; [auto | lia].
  - intros Hz. destruct (0 <? raw16) eqn:E; [lia | reflexivity].
  - destruct (0 <? raw16) eqn:E; [|lia].
    rewrite Hq by lia. apply Z.div_pos; lia.
Qed.

(** C10 (duty floor).  For every previous duty [prev_pct >= 1] and every
    [temp_c] with [38 <= temp_c <= 40] the target is exactly 20, whatever
    [prev_pct] is; and for every [temp_c < 80] the target is 0 or lies in
    [[20,100]]. *)
Theorem duty_floor (temp_c prev_pct : Z) :
  (1 <= prev_pct -> 38 <= temp_c <= 40 ->
     target_duty_from_temp_hot temp_c prev_pct = 20) /\
  (temp_c < 80 ->
     target_duty_from_temp_hot temp_c prev_pct = 0 \/
     20 <= target_duty_from_temp_hot temp_c prev_pct <= 100).
Proof.
  split.
  - intros Hprev Ht. rewrite target_below_max by lia.
    destruct (prev_pct =? 0) eqn:E0; [lia|].
    destruct (temp_c <? 38) eqn:E38; [lia|].
    destruct (temp_c <=? 40) eqn:E40; [reflexivity | lia].
  - intros _. apply target_range.
Qed.

(** C8 (EC write abort).  In [ec_io_do], with each of the four waits taken in
    the world the sequence has reached: the result is -1 as soon as one wait
    times out and 0 only when none does; the bytes sent are those that
    precede the first wait that timed out (none, the command opcode, opcode
    and register address, or all three), and nothing after it. *)
Theorem ec_io_do_abort (cmd port value : Z) (w : World) :
  let w1 := snd (ec_io_wait EC_SC IBF 0 w) in
  let w2 := snd (ec_io_wait EC_SC IBF 0 (snd (outb cmd EC_SC w1))) in
  let w3 := snd (ec_io_wait EC_SC IBF 0 (snd (outb port EC_DATA w2))) in
  let t1 := wait_times_out EC_SC IBF 0 w in
  let t2 := wait_times_out EC_SC IBF 0 (snd (outb cmd EC_SC w1)) in
  let t3 := wait_times_out EC_SC IBF 0 (snd (outb port EC_DATA w2)) in
  let t4 := wait_times_out EC_SC IBF 0 (snd (outb value EC_DATA w3)) in
  let r := fst (ec_io_do cmd port value w) in
  let sent := outbs (trace (snd (ec_io_do cmd port value w))) in
  (t1 || t2 || t3 || t4 = true -> r = -1) /\
  (r = 0 <-> t1 || t2 || t3 || t4 = false) /\
  (t1 = true -> sent = outbs (trace w)) /\
  (t1 = false -> t2 = true ->
     sent = (outbs (trace w) ++ [(uint8 cmd, EC_SC)])%list) /\
  (t1 = false -> t2 = false -> t3 = true ->
     sent = (outbs (trace w) ++ [(uint8 cmd, EC_SC); (uint8 port, EC_DATA)])%list) /\
  (t1 = false -> t2 = false -> t3 = false ->
     sent = (outbs (trace w) ++
             [(uint8 cmd, EC_SC); (uint8 port, EC_DATA); (uint8 value, EC_DATA)])%list).
Proof.
  intros w1 w2 w3 t1 t2 t3 t4 r sent.
  destruct (ec_io_do_outcome cmd port value w) as [Hr Hsent].
  cbv zeta in Hr, Hsent.
  fold w1 t1 in Hr, Hsent. fold w2 t2 in Hr, Hsent. fold w3 t3 t4 in Hr, Hsent.
  fold r in Hr. fold sent in Hsent.
  clearbody sent r t4 t3 t2 t1. clear w1 w2 w3.
  subst r sent.
  destruct t1, t2, t3, t4; cbn [orb];
    repeat split; intros; try discriminate; try reflexivity;
    try (rewrite app_nil_r; reflexivity).
Qed.

(** ** Instances *)

Lemma safety_override_cold_start :
  target_duty_from_temp_hot 80 0 = 100 /\
  auto_new_duty 80 0 = 100 /\
  st_duty (snd (fst (auto_cycle 0 (world_ready 80)))) = 100 /\
  fst (fst (auto_cycle 0 (world_ready 80))) = 100.
Proof.
  destruct (safety_override 80 0) as (Ht & Hn & Hc); [lia | lia |].
  split; [exact Ht|]. split; [exact Hn|].
  apply (Hc (world_ready 80)). vm_compute. reflexivity.
Defined.

Lemma step_toward_20_100 :
  Z.abs (step_toward 20 100 - 20) <= 2 /\ 20 <= step_toward 20 100 <= 100.
Proof.
  destruct (step_toward_bounded 20 100) as (Habs & Hup & _); [lia | lia |].
  split; [exact Habs | apply Hup; lia].
Defined.

Lemma linear_region_60 : target_duty_from_temp_hot 60 20 = spec_linear_duty 60.
Proof.
  apply (linear_region 60 20); lia.
Defined.

Lemma duty_round_trip_50 :
  duty_pct_to_raw (duty_raw_to_pct (duty_pct_to_raw 50)) = duty_pct_to_raw 50.
Proof.
  apply (duty_round_trip 50). lia.
Defined.

Lemma rpm_from_raw_1_0 : rpm_from_raw 1 0 = 2156220 / 256.
Proof.
  destruct (rpm_from_raw_guarded 1 0) as (Hpos & _); [lia | lia |].
  apply Hpos. vm_compute. reflexivity.
Defined.

Lemma duty_floor_39 : target_duty_from_temp_hot 39 57 = 20.
Proof.
  apply (proj1 (duty_floor 39 57)); lia.
Defined.

Lemma ec_io_do_first_wait_fails :
  fst (ec_io_do 0x99 0x01 255 (world_stalls_after 0 0)) = -1 /\
  outbs (trace (snd (ec_io_do 0x99 0x01 255 (world_stalls_after 0 0)))) = [].
Proof.
  pose proof (ec_io_do_abort 0x99 0x01 255 (world_stalls_after 0 0))
    as (Hfail & _ & Hnone & _).
  split; [apply Hfail | apply Hnone]; vm_compute; reflexivity.
Defined.

(* ================================================================== *)
(** * Further properties *)

(** ** Conversions and curve *)

(** A function that does not decrease from any point of a range to the next
    does not decrease over the range. *)
Lemma monotone_on_zrange (f : Z -> Z) (lo : Z) (n : nat) :
  forallb (fun z => f z <=? f (z + 1)) (zrange lo n) = true ->
  forall a b, lo <= a -> a <= b -> b <= lo + Z.of_nat n -> f a <= f b.
Proof.
  intros Hstep a b Hlo Hab Hhi.
  assert (Hs : forall z, lo <= z < lo + Z.of_nat n -> f z <= f (z + 1)).
  { intros z Hz. apply Z.leb_le.
    apply (forallb_zrange (fun z => f z <=? f (z + 1)) lo n Hstep z Hz). }
  assert (Hk : forall k, 0 <= k -> a + k <= lo + Z.of_nat n -> f a <= f (a + k)).
  { intros k Hk. pattern k. apply natlike_ind; [| |exact Hk].
    - intros _. rewrite Z.add_0_r. lia.
    - intros x Hx IH Hbound.
      replace (a + Z.succ x) with (a + x + 1) by lia.
      etransitivity; [apply IH; lia | apply Hs; lia]. }
  replace b with (a + (b - a)) by lia. apply Hk; lia.
Qed.

Lemma clamp_mono (a b lo hi : Z) :
  lo <= hi -> a <= b -> clamp a lo hi <= clamp b lo hi.
Proof.
  intros Hlh Hab. unfold clamp.
  destruct (a <? lo) eqn:E1, (b <? lo) eqn:E2; try lia;
    destruct (hi <? a) eqn:E3; destruct (hi <? b) eqn:E4; lia.
Qed.

Lemma duty_pct_to_raw_clamp (pct : Z) :
  duty_pct_to_raw pct = duty_pct_to_raw (clamp pct 0 100).
Proof.
  unfold duty_pct_to_raw.
  rewrite (clamp_id (clamp pct 0 100) 0 100) by (apply clamp_range; lia).
  reflexivity.
Qed.

(** X3 (monotone conversions).  The write conversion never decreases as the
    percentage grows, over all of [int] (it clamps first); the read
    conversion never decreases as the raw byte grows. *)
Theorem duty_conversions_monotone :
  (forall p q, p <= q -> duty_pct_to_raw p <= duty_pct_to_raw q) /\
  (forall r s, 0 <= r -> r <= s -> s <= 255 ->
     duty_raw_to_pct r <= duty_raw_to_pct s).
Proof.
  split.
  - intros p q Hpq.
    rewrite (duty_pct_to_raw_clamp p), (duty_pct_to_raw_clamp q).
    pose proof (clamp_range p 0 100) as Hp. pose proof (clamp_range q 0 100) as Hq.
    assert (Hm : clamp p 0 100 <= clamp q 0 100) by (apply clamp_mono; lia).
    apply (monotone_on_zrange duty_pct_to_raw 0 100);
      [vm_compute; reflexivity | lia | lia | lia].
  - intros r s Hr Hrs Hs.
    apply (monotone_on_zrange duty_raw_to_pct 0 255);
      [vm_compute; reflexivity | lia | lia | lia].
Qed.

(** A percentage in [[0,100]] converted to its raw byte and read back is the
    same percentage. *)
Lemma duty_read_back (pct : Z) :
  0 <= pct <= 100 -> duty_raw_to_pct (duty_pct_to_raw pct) = pct.
Proof.
  intros Hpct. apply Z.eqb_eq.
  apply (forallb_zrange (fun p => duty_raw_to_pct (duty_pct_to_raw p) =? p) 0 101);
    [vm_compute; reflexivity | lia].
Qed.

(** X4 (saturation).  The write conversion sends 0 for every percentage at or
    below 0 and 255 for every percentage at or above 100; the byte of any
    percentage read back is that percentage clamped to [[0,100]]. *)
Theorem duty_write_saturates (pct : Z) :
  (pct <= 0 -> duty_pct_to_raw pct = 0) /\
  (100 <= pct -> duty_pct_to_raw pct = 255) /\
  duty_raw_to_pct (duty_pct_to_raw pct) = clamp pct 0 100.
Proof.
  rewrite (duty_pct_to_raw_clamp pct).
  repeat split.
  - intros H. replace (clamp pct 0 100) with 0; [vm_compute; reflexivity|].
    unfold clamp. destruct (pct <? 0) eqn:E; [reflexivity|].
    destruct (100 <? pct) eqn:E'; lia.
  - intros H. replace (clamp pct 0 100) with 100; [vm_compute; reflexivity|].
    unfold clamp. destruct (pct <? 0) eqn:E; [lia|].
    destruct (100 <? pct) eqn:E'; lia.
  - apply duty_read_back. apply clamp_range. lia.
Qed.

(** A raw duty byte converted to a percentage and back moves by at most one
    raw step. *)
Lemma duty_raw_round_trip_error (raw : Z) :
  0 <= raw <= 255 ->
  Z.abs (duty_pct_to_raw (duty_raw_to_pct raw) - raw) <= 1.
Proof.
  intros Hraw. apply Z.leb_le.
  apply (forallb_zrange
           (fun r => Z.abs (duty_pct_to_raw (duty_raw_to_pct r) - r) <=? 1) 0 256);
    [vm_compute; reflexivity | lia].
Qed.

(** [map_temp_to_duty] in closed form. *)
Lemma map_temp_to_duty_cases (temp_c : Z) :
  map_temp_to_duty temp_c =
    if temp_c <? 40 then 0
    else if 80 <=? temp_c then 100
    else 2 * temp_c - 60.
Proof.
  unfold map_temp_to_duty, AUTO_MIN_TEMP_C, AUTO_MAX_TEMP_C.
  destruct (temp_c <? 40) eqn:E40; [reflexivity|].
  destruct (80 <=? temp_c) eqn:E80; [reflexivity|].
  destruct (Z.eq_dec temp_c 40) as [-> | Hne]; [vm_compute; reflexivity|].
  apply linear_duty_exact. lia.
Qed.

(** X5 (hysteresis against the plain curve).  Outside the band 38..42 the
    hysteretic target is the plain curve [map_temp_to_duty], whatever the
    previous duty.  Inside the band a fan that is off stays off, and a fan
    that runs gets the plain curve raised to the 20 percent floor. *)
Theorem hysteresis_vs_curve (temp_c prev_pct : Z) :
  (temp_c < 38 \/ 42 < temp_c ->
     target_duty_from_temp_hot temp_c prev_pct = map_temp_to_duty temp_c) /\
  (38 <= temp_c <= 42 -> prev_pct = 0 ->
     target_duty_from_temp_hot temp_c prev_pct = 0) /\
  (38 <= temp_c <= 42 -> prev_pct <> 0 ->
     target_duty_from_temp_hot temp_c prev_pct =
     Z.max 20 (map_temp_to_duty temp_c)).
Proof.
  rewrite map_temp_to_duty_cases.
  destruct (Z_lt_le_dec temp_c 80) as [Hlt | Hge].
  - rewrite target_below_max by assumption.
    destruct (prev_pct =? 0) eqn:E0;
      [apply Z.eqb_eq in E0 | apply Z.eqb_neq in E0];
      destruct (temp_c <=? 42) eqn:E42; destruct (temp_c <? 38) eqn:E38;
      destruct (temp_c <=? 40) eqn:E40; destruct (temp_c <? 40) eqn:E40';
      destruct (80 <=? temp_c) eqn:E80;
      repeat split; intros; try lia.
  - rewrite target_hot by assumption.
    destruct (temp_c <? 40) eqn:E40'; destruct (80 <=? temp_c) eqn:E80;
      repeat split; intros; lia.
Qed.

(** X6 (monotone curve).  For a fixed previous duty the hysteretic target never
    decreases as the temperature rises, and neither does the plain curve. *)
Theorem target_monotone_in_temp (t1 t2 prev_pct : Z) :
  t1 <= t2 ->
  target_duty_from_temp_hot t1 prev_pct <= target_duty_from_temp_hot t2 prev_pct /\
  map_temp_to_duty t1 <= map_temp_to_duty t2.
Proof.
  intros H12. split.
  - destruct (Z_lt_le_dec t2 80) as [H2 | H2].
    + rewrite !target_below_max by lia.
      destruct (prev_pct =? 0);
        destruct (t1 <=? 42) eqn:A1; destruct (t2 <=? 42) eqn:A2;
        destruct (t1 <? 38) eqn:B1; destruct (t2 <? 38) eqn:B2;
        destruct (t1 <=? 40) eqn:C1; destruct (t2 <=? 40) eqn:C2; lia.
    + rewrite (target_hot t2) by lia.
      destruct (target_range t1 prev_pct); lia.
  - rewrite !map_temp_to_duty_cases.
    destruct (t1 <? 40) eqn:A1; destruct (t2 <? 40) eqn:A2;
      destruct (80 <=? t1) eqn:B1; destruct (80 <=? t2) eqn:B2; lia.
Qed.

(** ** The control law over several cycles *)

(** The duty chosen in a cycle below 80 degrees, in closed form. *)
Lemma auto_new_duty_below_max (th last : Z) :
  th < 80 -> 0 <= last <= 100 ->
  auto_new_duty th last =
    last + Z.max (-2) (Z.min 2 (target_duty_from_temp_hot th last - last)).
Proof.
  intros Hth Hl. rewrite auto_new_duty_ramp by assumption.
  rewrite step_toward_pct; [reflexivity | assumption|].
  destruct (target_range th last); lia.
Qed.

Lemma auto_new_duty_range (th last : Z) : 0 <= auto_new_duty th last <= 100.
Proof. unfold auto_new_duty. apply clamp_range. lia. Qed.

(** X7 (fans keep their state in the band).  With [last] in [[0,100]]: a fan
    that is off stays off up to 42 degrees; a fan that runs keeps running
    from 38 degrees on; below 38 degrees a running fan is slowed by 2 points
    per cycle down to 0; and a fan that is off is started at 2 percent, not
    at the 20 percent floor, from 43 degrees on. *)
Theorem fans_keep_state (th last : Z) :
  0 <= last <= 100 ->
  (last = 0 -> th <= 42 -> auto_new_duty th last = 0) /\
  (0 < last -> 38 <= th -> 0 < auto_new_duty th last) /\
  (0 < last -> th < 38 -> auto_new_duty th last = Z.max 0 (last - 2)) /\
  (last = 0 -> 43 <= th < 80 -> auto_new_duty th last = 2).
Proof.
  intros Hl.
  destruct (Z_lt_le_dec th 80) as [Hlt | Hge].
  - rewrite auto_new_duty_below_max by assumption.
    rewrite target_below_max by assumption.
    destruct (last =? 0) eqn:E0;
      [apply Z.eqb_eq in E0 | apply Z.eqb_neq in E0];
      destruct (th <=? 42) eqn:E42; destruct (th <? 38) eqn:E38;
      destruct (th <=? 40) eqn:E40; repeat split; intros; lia.
  - rewrite auto_new_duty_hot by assumption.
    repeat split; intros; lia.
Qed.

(** A cycle does not change the target: the hysteresis branch taken for
    [last] is the one taken for the duty that follows it. *)
Lemma target_stable (th last : Z) :
  0 <= last <= 100 ->
  target_duty_from_temp_hot th (auto_new_duty th last) =
  target_duty_from_temp_hot th last.
Proof.
  intros Hl.
  destruct (Z_lt_le_dec th 80) as [Hlt | Hge];
    [|rewrite !target_hot by assumption; reflexivity].
  rewrite auto_new_duty_below_max by assumption.
  rewrite !target_below_max by assumption.
  destruct (last =? 0) eqn:E0;
    [apply Z.eqb_eq in E0 | apply Z.eqb_neq in E0];
    destruct (th <=? 42) eqn:E42; destruct (th <? 38) eqn:E38;
    destruct (th <=? 40) eqn:E40;
    match goal with
    | |- context [?x =? 0] =>
        destruct (x =? 0) eqn:E1;
        [apply Z.eqb_eq in E1 | apply Z.eqb_neq in E1]
    end; lia.
Qed.

(** After [n] cycles at a constant temperature the duty has moved toward the
    target of the first cycle by [2 * n] points, or has reached it. *)
Lemma settle_closed_form (th : Z) (n : nat) :
  forall last,
    th < 80 -> 0 <= last <= 100 ->
    settle th n last =
      last + Z.max (- (2 * Z.of_nat n))
                   (Z.min (2 * Z.of_nat n)
                          (target_duty_from_temp_hot th last - last)).
Proof.
  induction n as [|n IH]; intros last Hth Hl.
  - simpl. lia.
  - unfold settle in *. rewrite Nat.iter_succ_r.
    rewrite IH by (try assumption; apply auto_new_duty_range).
    rewrite target_stable by assumption.
    rewrite auto_new_duty_below_max by assumption.
    destruct (target_range th last); lia.
Qed.

(** X8 (settling).  At a constant hot temperature the duty reaches the target
    computed in the first cycle after at most 50 cycles, from any duty in
    [[0,100]], and stays there. *)
Theorem settle_reaches_target (th last : Z) (n : nat) :
  0 <= last <= 100 -> (50 <= n)%nat ->
  settle th n last = target_duty_from_temp_hot th last /\
  auto_new_duty th (settle th n last) = settle th n last.
Proof.
  intros Hl Hn.
  assert (Hs : forall k, (50 <= k)%nat ->
                         settle th k last = target_duty_from_temp_hot th last).
  { intros k Hk. destruct (Z_lt_le_dec th 80) as [Hlt | Hge].
    - rewrite settle_closed_form by assumption.
      destruct (target_range th last); lia.
    - destruct k as [|k]; [lia|]. unfold settle. rewrite Nat.iter_succ.
      rewrite auto_new_duty_hot, target_hot by assumption. reflexivity. }
  split; [apply Hs, Hn|].
  change (auto_new_duty th (settle th n last)) with (settle th (S n) last).
  rewrite !Hs by lia. reflexivity.
Qed.

Lemma settle_from_100_at_30 :
  settle 30 50 100 = 0 /\ settle 30 49 100 = 2.
Proof.
  split; [|vm_compute; reflexivity].
  rewrite (proj1 (settle_reaches_target 30 100 50 ltac:(lia) ltac:(lia))).
  vm_compute. reflexivity.
Defined.

Lemma last_default_irrelevant (a : Z) (l : list Z) (d d' : Z) :
  List.last (a :: l) d = List.last (a :: l) d'.
Proof.
  revert a. induction l as [|b l IH]; intros a; [reflexivity|].
  change (List.last (b :: l) d = List.last (b :: l) d'). apply IH.
Qed.

(** X9 (the loop's duty).  [n] cycles of the auto loop print [n] lines; every
    duty printed lies in [[0,100]]; the value [last] ends with is the duty of
    the last line; and as long as every hot temperature sensed was below 80,
    [last] has moved by at most [2 * n] points. *)
Theorem auto_loop_ramp (n : nat) (last : Z) (w : World) :
  0 <= last <= 100 ->
  let final := fst (fst (auto_loop n last w)) in
  let lines := snd (fst (auto_loop n last w)) in
  List.length lines = n /\
  Forall (fun st => 0 <= st_duty st <= 100) lines /\
  final = final_duty lines last /\
  (Forall (fun st => st_hot st < 80) lines ->
     Z.abs (final - last) <= 2 * Z.of_nat n).
Proof.
  revert last w. induction n as [|n IH]; intros last w Hl.
  - simpl. repeat split; try constructor; lia.
  - cbn [auto_loop]. unfold bind.
    pose proof (auto_cycle_duty last w) as (Hh & Hd & Hn).
    destruct (auto_cycle last w) as [[last' st] w1]. cbn [fst snd] in *.
    assert (Hl' : 0 <= last' <= 100)
      by (rewrite Hn; apply auto_new_duty_range).
    specialize (IH last' w1 Hl'). cbv zeta in IH.
    destruct (auto_loop n last' w1) as [[final lines] w2].
    cbn [fst snd ret] in *.
    destruct IH as (Hlen & Hall & Hfin & Hramp).
    repeat split.
    + simpl. lia.
    + constructor; [rewrite Hd; apply auto_new_duty_range | exact Hall].
    + unfold final_duty in *. cbn [map].
      destruct lines as [|l ls]; [simpl in *; congruence|].
      rewrite Hfin. cbn [map].
      rewrite (last_default_irrelevant _ _ last' last). reflexivity.
    + intros Hcool. inversion Hcool as [|x xs Hx Hxs]; subst x xs.
      specialize (Hramp Hxs). rewrite Hh in Hx.
      assert (Hstep : Z.abs (last' - last) <= 2).
      { rewrite Hn, auto_new_duty_below_max by assumption.
        destruct (target_range (snd (fst (auto_sense w))) last); lia. }
      lia.
Qed.

Lemma auto_loop_ramp_ready_60 :
  Z.abs (fst (fst (auto_loop 3 0 (world_ready 60))) - 0) <= 6.
Proof.
  pose proof (auto_loop_ramp 3 0 (world_ready 60) ltac:(lia)) as (_ & _ & _ & H).
  apply H. vm_compute. repeat constructor.
Defined.

(** ** Bounded polling and the bytes sent *)

Lemma io_bound_ret {A} (n : nat) (ok : Z * Z -> bool) (a : A) :
  io_bound n ok (ret a).
Proof.
  intros w. simpl. split; [lia|]. exists []. rewrite app_nil_r. auto.
Qed.

Lemma io_bound_bind {A B} (n1 n2 : nat) (ok : Z * Z -> bool)
      (m : M A) (k : A -> M B) :
  io_bound n1 ok m -> (forall a, io_bound n2 ok (k a)) ->
  io_bound (n1 + n2) ok (bind m k).
Proof.
  intros Hm Hk w. unfold bind.
  destruct (Hm w) as (C1 & b1 & S1 & O1).
  destruct (m w) as [a w1]. cbn [snd] in *.
  destruct (Hk a w1) as (C2 & b2 & S2 & O2).
  split; [lia|]. exists (b1 ++ b2)%list.
  rewrite S2, S1, <- app_assoc, forallb_app, O1, O2. auto.
Qed.

Lemma io_bound_weaken {A} (n n' : nat) (ok ok' : Z * Z -> bool) (m : M A) :
  (n <= n')%nat -> (forall vp, ok vp = true -> ok' vp = true) ->
  io_bound n ok m -> io_bound n' ok' m.
Proof.
  intros Hn Hok Hm w. destruct (Hm w) as (C & b & S & O).
  split; [lia|]. exists b. split; [exact S|].
  rewrite forallb_forall in *. auto.
Qed.

(** An effect that only logs a file-system, subprocess or sleep event. *)
Lemma io_bound_log {A} (ok : Z * Z -> bool) (e : Event) (f : World -> A) :
  outbs [e] = [] -> io_bound 0 ok (fun w => (f w, log e w)).
Proof.
  intros He w. simpl. split; [lia|]. exists [].
  rewrite outbs_app, He. auto.
Qed.

Lemma io_bound_inb (ok : Z * Z -> bool) (port : Z) : io_bound 1 ok (inb port).
Proof.
  intros w. simpl. split; [lia|]. exists [].
  rewrite outbs_app. simpl. auto.
Qed.

Lemma io_bound_outb (ok : Z * Z -> bool) (value port : Z) :
  ok (uint8 value, port) = true -> io_bound 0 ok (outb value port).
Proof.
  intros Hok w. simpl. split; [lia|]. exists [(uint8 value, port)].
  rewrite outbs_app. simpl. rewrite Hok. auto.
Qed.

Lemma io_bound_usleep (ok : Z * Z -> bool) (usec : Z) : io_bound 0 ok (usleep usec).
Proof. apply (io_bound_log ok (EvUsleep usec) (fun _ => tt)). reflexivity. Qed.

Lemma io_bound_wait_loop (ok : Z * Z -> bool) (port flag value : Z) (left : nat) :
  forall data, io_bound left ok (ec_io_wait_loop left port flag value data).
Proof.
  induction left as [|left IH]; intros data; cbn [ec_io_wait_loop].
  - destruct (flag_differs data flag value); apply io_bound_ret.
  - destruct (flag_differs data flag value);
      [|apply io_bound_ret].
    change (S left) with (0 + (1 + left))%nat.
    apply io_bound_bind; [apply io_bound_usleep|]. intros _.
    apply io_bound_bind; [apply io_bound_inb | intros data'; apply IH].
Qed.

Lemma io_bound_wait (ok : Z * Z -> bool) (port flag value : Z) :
  io_bound 101 ok (ec_io_wait port flag value).
Proof.
  unfold ec_io_wait. change 101%nat with (1 + 100)%nat.
  apply io_bound_bind; [apply io_bound_inb|].
  intros data. apply io_bound_wait_loop.
Qed.

Lemma read_only_is_ec_write (vp : Z * Z) :
  read_only_write vp = true -> ec_write vp = true.
Proof.
  unfold read_only_write, ec_write.
  destruct (snd vp =? EC_SC); [|auto].
  intros H. rewrite H. reflexivity.
Qed.

Lemma io_bound_read (reg : Z) : io_bound 304 read_only_write (ec_io_read reg).
Proof.
  unfold ec_io_read.
  change 304%nat with (101 + (0 + (101 + (0 + (101 + 1)))))%nat.
  apply io_bound_bind; [apply io_bound_wait|]. intros _.
  apply io_bound_bind; [apply io_bound_outb; reflexivity|]. intros _.
  apply io_bound_bind; [apply io_bound_wait|]. intros _.
  apply io_bound_bind; [apply io_bound_outb; reflexivity|]. intros _.
  apply io_bound_bind; [apply io_bound_wait|]. intros _.
  apply io_bound_inb.
Qed.

Lemma io_bound_do (sel value : Z) :
  io_bound 404 ec_write (ec_io_do 0x99 sel value).
Proof.
  unfold ec_io_do.
  change 404%nat with (101 + (0 + (101 + (0 + (101 + (0 + 101))))))%nat.
  apply io_bound_bind; [apply io_bound_wait|]. intros r1.
  destruct (negb (r1 =? 0));
    [apply io_bound_ret|].
  apply io_bound_bind; [apply io_bound_outb; reflexivity|]. intros _.
  apply io_bound_bind; [apply io_bound_wait|]. intros r2.
  destruct (negb (r2 =? 0));
    [apply io_bound_ret|].
  apply io_bound_bind; [apply io_bound_outb; reflexivity|]. intros _.
  apply io_bound_bind; [apply io_bound_wait|]. intros r3.
  destruct (negb (r3 =? 0));
    [apply io_bound_ret|].
  apply io_bound_bind; [apply io_bound_outb; reflexivity|]. intros _.
  apply io_bound_wait.
Qed.

Lemma io_bound_bind0 {A B} (ok : Z * Z -> bool) (m : M A) (k : A -> M B) :
  io_bound 0 ok m -> (forall a, io_bound 0 ok (k a)) -> io_bound 0 ok (bind m k).
Proof. intros Hm Hk. apply (io_bound_bind 0 0 ok m k Hm Hk). Qed.

(** The sensor scan and the vendor tool do no port I/O. *)
Lemma io_bound_path_exists (ok : Z * Z -> bool) (path : string) :
  io_bound 0 ok (path_exists path).
Proof. unfold path_exists. apply io_bound_log. reflexivity. Qed.

Lemma io_bound_open_read (ok : Z * Z -> bool) (path : string) (size : nat) :
  io_bound 0 ok (open_read path size).
Proof. unfold open_read. apply io_bound_log. reflexivity. Qed.

Lemma io_bound_read_int (ok : Z * Z -> bool) (path : string) :
  io_bound 0 ok (read_int_from_file path).
Proof.
  unfold read_int_from_file.
  apply io_bound_bind0; [apply io_bound_open_read|].
  intros [[|c s]|]; apply io_bound_ret.
Qed.

Lemma io_bound_scan_temps (ok : Z * Z -> bool) (base : string)
      (indices : list nat) :
  forall best, io_bound 0 ok (scan_temps base indices best).
Proof.
  induction indices as [|i rest IH]; intros best; cbn [scan_temps].
  - apply io_bound_ret.
  - apply io_bound_bind0; [apply io_bound_path_exists|].
    intros present. destruct present; cbn [negb]; [|apply IH].
    apply io_bound_bind0; [apply io_bound_read_int|].
    intros milli. destruct (0 <? milli); apply IH.
Qed.

Lemma io_bound_scan_hwmon (ok : Z * Z -> bool) (entries : list string) :
  forall best, io_bound 0 ok (scan_hwmon entries best).
Proof.
  induction entries as [|d_name rest IH]; intros best; cbn [scan_hwmon].
  - apply io_bound_ret.
  - destruct (starts_with "hwmon" d_name); cbn [negb]; [|apply IH].
    apply io_bound_bind0; [apply io_bound_open_read|].
    intros [[|c s]|]; try apply IH.
    destruct (gpu_driver_name (chomp (String c s))); [|apply IH].
    apply io_bound_bind0; [apply io_bound_scan_temps | intros; apply IH].
Qed.

Lemma io_bound_sysfs (ok : Z * Z -> bool) : io_bound 0 ok gpu_temp_sysfs.
Proof.
  unfold gpu_temp_sysfs. apply io_bound_bind0.
  - unfold opendir. apply io_bound_log. reflexivity.
  - intros [entries|]; [apply io_bound_scan_hwmon | apply io_bound_ret].
Qed.

Lemma io_bound_nvidia (ok : Z * Z -> bool) : io_bound 0 ok gpu_temp_nvidia_smi.
Proof.
  unfold gpu_temp_nvidia_smi.
  apply io_bound_bind0; [apply io_bound_path_exists|].
  intros present. destruct present; cbn [negb]; [|apply io_bound_ret].
  apply io_bound_bind0; [unfold popen; apply io_bound_log; reflexivity|].
  intros [out|]; [|apply io_bound_ret].
  destruct (fgets 64 out); [|apply io_bound_ret].
  destruct ((0 <? atoi s) && (atoi s <? 130)); apply io_bound_ret.
Qed.

Lemma io_bound_gpu_temp : io_bound 304 read_only_write gpu_temp.
Proof.
  unfold gpu_temp. change 304%nat with (0 + (0 + 304))%nat.
  apply io_bound_bind; [apply io_bound_sysfs|]. intros t1.
  destruct (0 <? t1); [apply io_bound_ret|].
  apply io_bound_bind; [apply io_bound_nvidia|]. intros t2.
  destruct (0 <? t2); [apply io_bound_ret | apply io_bound_read].
Qed.

Lemma io_bound_duty_read (reg : Z) :
  io_bound 304 read_only_write
    (raw <- ec_io_read reg ;; ret (duty_raw_to_pct raw)).
Proof.
  change 304%nat with (304 + 0)%nat.
  apply io_bound_bind; [apply io_bound_read | intros; apply io_bound_ret].
Qed.

Lemma io_bound_rpm_read (reg_hi reg_lo : Z) :
  io_bound 608 read_only_write
    (hi <- ec_io_read reg_hi ;; lo <- ec_io_read reg_lo ;;
     ret (rpm_from_raw hi lo)).
Proof.
  change 608%nat with (304 + (304 + 0))%nat.
  apply io_bound_bind; [apply io_bound_read|]. intros hi.
  apply io_bound_bind; [apply io_bound_read | intros; apply io_bound_ret].
Qed.

Lemma io_bound_dump : io_bound 2432 read_only_write dump_status.
Proof.
  unfold dump_status.
  change 2432%nat with (304 + (304 + (304 + (608 + (304 + (608 + 0))))))%nat.
  apply io_bound_bind; [apply io_bound_read|]. intros tc.
  apply io_bound_bind; [apply io_bound_gpu_temp|]. intros tg.
  apply io_bound_bind; [apply (io_bound_duty_read EC_REG_FAN1_DUTY)|]. intros d1.
  apply io_bound_bind;
    [apply (io_bound_rpm_read EC_REG_FAN1_RPM_HI EC_REG_FAN1_RPM_LO)|]. intros r1.
  apply io_bound_bind; [apply (io_bound_duty_read EC_REG_FAN2_DUTY)|]. intros d2.
  apply io_bound_bind;
    [apply (io_bound_rpm_read EC_REG_FAN2_RPM_HI EC_REG_FAN2_RPM_LO)|]. intros r2.
  apply io_bound_ret.
Qed.

(** ** Values read *)

Lemma inb_byte (port : Z) (w : World) : 0 <= fst (inb port w) <= 255.
Proof.
  simpl. unfold uint8.
  pose proof (Z.mod_pos_bound (ec_port w (inb_count w) port) 256). lia.
Qed.

Lemma ec_io_read_byte (reg : Z) (w : World) : 0 <= fst (ec_io_read reg w) <= 255.
Proof.
  unfold ec_io_read, bind.
  destruct (ec_io_wait EC_SC IBF 0 w) as [r1 w1].
  destruct (outb EC_SC_READ_CMD EC_SC w1) as [u1 w2].
  destruct (ec_io_wait EC_SC IBF 0 w2) as [r2 w3].
  destruct (outb reg EC_DATA w3) as [u2 w4].
  destruct (ec_io_wait EC_SC OBF 1 w4) as [r3 w5].
  apply inb_byte.
Qed.

Lemma rpm_from_raw_bytes (hi lo : Z) :
  0 <= hi <= 255 -> 0 <= lo <= 255 -> 0 <= rpm_from_raw hi lo <= 2156220.
Proof.
  intros Hhi Hlo. unfold rpm_from_raw.
  rewrite int32_small
    by (rewrite Z.shiftl_mul_pow2 by lia; int_range).
  assert (Hnn : 0 <= Z.lor (Z.shiftl hi 8) lo)
    by (apply Z.lor_nonneg; split; [apply Z.shiftl_nonneg|]; lia).
  destruct (0 <? Z.lor (Z.shiftl hi 8) lo) eqn:E; [|lia].
  unfold idiv. rewrite Z.quot_div_nonneg by lia.
  assert (0 <= 2156220 / Z.lor (Z.shiftl hi 8) lo) by (apply Z.div_pos; lia).
  assert (2156220 / Z.lor (Z.shiftl hi 8) lo <= 2156220)
    by (apply Z.div_le_upper_bound; nia).
  rewrite int32_small by int_range. lia.
Qed.

(** ** The transport *)

(** The loop of a wait reads until the flag shows or the budget is spent. *)
Lemma ec_io_wait_loop_reads (port flag value : Z) (left : nat) :
  forall data w,
    let r := ec_io_wait_loop left port flag value data w in
    exists k,
      (k <= left)%nat /\
      inb_count (snd r) = (inb_count w + k)%nat /\
      (forall j, (j < k)%nat ->
         flag_differs (examined w port data j) flag value = true) /\
      (fst r = 0 ->
         (k < left)%nat /\
         flag_differs (examined w port data k) flag value = false) /\
      (fst r <> 0 -> k = left).
Proof.
  induction left as [|left IH]; intros data w; cbn [ec_io_wait_loop].
  - exists 0%nat.
    destruct (flag_differs data flag value); simpl;
      (split; [lia|]; split; [lia|]; split; [intros j Hj; lia|];
       split; [discriminate | reflexivity]).
  - destruct (flag_differs data flag value) eqn:Ed.
    + unfold bind. cbn [usleep].
      assert (Hd : fst (inb port (log (EvUsleep 1000) w)) = answer w port 0)
        by exact (proj1 (inb_answer port (log (EvUsleep 1000) w))).
      assert (Hans : forall k, answer (snd (inb port (log (EvUsleep 1000) w))) port k
                               = answer w port (S k))
        by exact (proj2 (inb_answer port (log (EvUsleep 1000) w))).
      assert (Hc : inb_count (snd (inb port (log (EvUsleep 1000) w)))
                   = S (inb_count w)) by reflexivity.
      destruct (inb port (log (EvUsleep 1000) w)) as [data' w'].
      cbn [fst snd] in Hd, Hans, Hc.
      assert (Hex : forall j, examined w' port data' j = examined w port data (S j)).
      { intros [|j]; simpl; [exact Hd | apply Hans]. }
      destruct (IH data' w') as (k & Hk & Hcount & Hbefore & Hok & Hfail).
      exists (S k). split; [lia|]. split; [rewrite Hcount, Hc; lia|].
      split.
      { intros [|j] Hj; [exact Ed|]. rewrite <- Hex. apply Hbefore. lia. }
      split.
      { intros H0. destruct (Hok H0) as [Hlt Hm].
        split; [lia | rewrite <- Hex; exact Hm]. }
      intros Hne. rewrite (Hfail Hne). reflexivity.
    + exists 0%nat. simpl.
      split; [lia|]. split; [lia|]. split; [intros j Hj; lia|].
      split; [intros _; split; [lia | exact Ed] | intros H; contradiction H; reflexivity].
Qed.

(** X1 (a wait stops at the first match).  [ec_io_wait] reads the port once,
    then again after each sleep until a byte shows the flag at the value
    waited for.  It returns 0 when one of the first 100 bytes does, having
    read no further than that byte; otherwise it returns -1 after exactly 101
    reads, whatever the 101st byte shows.  It sends nothing. *)
Theorem ec_io_wait_stops_at_first_match (port flag value : Z) (w : World) :
  let r := fst (ec_io_wait port flag value w) in
  let n := reads_of (ec_io_wait port flag value) w in
  (1 <= n <= 101)%nat /\
  (forall j, (S j < n)%nat -> flag_differs (answer w port j) flag value = true) /\
  (r = 0 ->
     (n <= 100)%nat /\
     flag_differs (answer w port (n - 1)) flag value = false) /\
  (r <> 0 -> r = -1 /\ n = 101%nat) /\
  outbs (trace (snd (ec_io_wait port flag value w))) = outbs (trace w).
Proof.
  cbv zeta. unfold reads_of.
  pose proof (ec_io_wait_result port flag value w) as Hres.
  pose proof (ec_io_wait_outbs port flag value w) as Hout.
  unfold ec_io_wait, bind in *.
  assert (Hd : fst (inb port w) = answer w port 0)
    by exact (proj1 (inb_answer port w)).
  assert (Hans : forall k, answer (snd (inb port w)) port k = answer w port (S k))
    by exact (proj2 (inb_answer port w)).
  assert (Hc : inb_count (snd (inb port w)) = S (inb_count w)) by reflexivity.
  destruct (inb port w) as [data w']. cbn [fst snd] in Hd, Hans, Hc.
  assert (Hex : forall j, examined w' port data j = answer w port j).
  { intros [|j]; simpl; [exact Hd | apply Hans]. }
  destruct (ec_io_wait_loop_reads port flag value 100 data w')
    as (k & Hk & Hcount & Hbefore & Hok & Hfail).
  cbv zeta in Hcount, Hok, Hfail.
  rewrite Hcount, Hc.
  replace (S (inb_count w) + k - inb_count w)%nat with (S k) by lia.
  split; [lia|].
  split; [intros j Hj; rewrite <- Hex; apply Hbefore; lia|].
  split.
  { intros H0. destruct (Hok H0) as [Hlt Hm].
    split; [lia|]. replace (S k - 1)%nat with k by lia.
    rewrite <- Hex. exact Hm. }
  split; [|exact Hout].
  intros Hne. split; [destruct Hres; [contradiction | assumption]|].
  rewrite (Hfail Hne). reflexivity.
Qed.

(** The bytes a register read sends. *)
Lemma ec_io_read_outbs (reg : Z) (w : World) :
  outbs (trace (snd (ec_io_read reg w))) =
  (outbs (trace w) ++ read_bytes reg)%list.
Proof.
  unfold ec_io_read, bind.
  pose proof (ec_io_wait_outbs EC_SC IBF 0 w) as H1.
  destruct (ec_io_wait EC_SC IBF 0 w) as [r1 w1]. cbn [snd] in H1.
  cbn [outb].
  pose proof (ec_io_wait_outbs EC_SC IBF 0 (log (EvOutb (uint8 EC_SC_READ_CMD) EC_SC) w1))
    as H2.
  destruct (ec_io_wait EC_SC IBF 0 (log (EvOutb (uint8 EC_SC_READ_CMD) EC_SC) w1))
    as [r2 w3]. cbn [snd] in H2.
  pose proof (ec_io_wait_outbs EC_SC OBF 1 (log (EvOutb (uint8 reg) EC_DATA) w3))
    as H3.
  destruct (ec_io_wait EC_SC OBF 1 (log (EvOutb (uint8 reg) EC_DATA) w3))
    as [r3 w5]. cbn [snd] in H3.
  rewrite inb_outbs, H3. simpl. rewrite outbs_app, H2. simpl.
  rewrite outbs_app, H1, <- app_assoc. reflexivity.
Qed.

(** A wait leaves the controller's answers as they are. *)
Lemma ec_io_wait_loop_port (port flag value : Z) (left : nat) :
  forall data w,
    ec_port (snd (ec_io_wait_loop left port flag value data w)) = ec_port w.
Proof.
  induction left as [|left IH]; intros data w; cbn [ec_io_wait_loop].
  - destruct (flag_differs data flag value); reflexivity.
  - destruct (flag_differs data flag value); [|reflexivity].
    unfold bind. cbn [usleep].
    destruct (inb port (log (EvUsleep 1000) w)) as [data' w'] eqn:E.
    rewrite IH. change w' with (snd (data', w')). rewrite <- E. reflexivity.
Qed.

Lemma ec_io_wait_count (port flag value : Z) (w : World) :
  exists k, (1 <= k <= 101)%nat /\
            inb_count (snd (ec_io_wait port flag value w)) = (inb_count w + k)%nat /\
            ec_port (snd (ec_io_wait port flag value w)) = ec_port w.
Proof.
  unfold ec_io_wait, bind.
  assert (Hc : inb_count (snd (inb port w)) = S (inb_count w)) by reflexivity.
  assert (Hp : ec_port (snd (inb port w)) = ec_port w) by reflexivity.
  destruct (inb port w) as [data w']. cbn [snd] in Hc, Hp.
  destruct (ec_io_wait_loop_reads port flag value 100 data w')
    as (k & Hk & Hcount & _).
  cbv zeta in Hcount. exists (S k). split; [lia|].
  split; [rewrite Hcount, Hc; lia|].
  rewrite ec_io_wait_loop_port. exact Hp.
Qed.

(** X2 (a read always answers).  Whatever the controller does, [ec_io_read]
    sends the read command and the register address, exactly these two
    bytes, performs between 4 and 304 port reads, and returns a byte: the one
    the data port delivers at the last of those reads. *)
Theorem ec_io_read_always_answers (reg : Z) (w : World) :
  let n := reads_of (ec_io_read reg) w in
  outbs (trace (snd (ec_io_read reg w))) = (outbs (trace w) ++ read_bytes reg)%list /\
  (4 <= n <= 304)%nat /\
  0 <= fst (ec_io_read reg w) <= 255 /\
  fst (ec_io_read reg w) = answer w EC_DATA (n - 1).
Proof.
  cbv zeta. split; [apply ec_io_read_outbs|].
  assert (H : exists k, (3 <= k <= 303)%nat /\
                        reads_of (ec_io_read reg) w = S k /\
                        fst (ec_io_read reg w) = answer w EC_DATA k).
  { unfold reads_of, ec_io_read, bind.
    destruct (ec_io_wait_count EC_SC IBF 0 w) as (k1 & B1 & C1 & P1).
    destruct (ec_io_wait EC_SC IBF 0 w) as [r1 w1]. cbn [snd] in C1, P1.
    cbn [outb].
    destruct (ec_io_wait_count EC_SC IBF 0
                (log (EvOutb (uint8 EC_SC_READ_CMD) EC_SC) w1)) as (k2 & B2 & C2 & P2).
    destruct (ec_io_wait EC_SC IBF 0 (log (EvOutb (uint8 EC_SC_READ_CMD) EC_SC) w1))
      as [r2 w3]. cbn [snd log inb_count ec_port] in C2, P2.
    destruct (ec_io_wait_count EC_SC OBF 1
                (log (EvOutb (uint8 reg) EC_DATA) w3)) as (k3 & B3 & C3 & P3).
    destruct (ec_io_wait EC_SC OBF 1 (log (EvOutb (uint8 reg) EC_DATA) w3))
      as [r3 w5]. cbn [snd log inb_count ec_port] in C3, P3.
    exists (k1 + k2 + k3)%nat. split; [lia|].
    cbn [inb fst snd inb_count]. unfold answer.
    rewrite C3, C2, C1, P3, P2, P1.
    split; [lia|]. f_equal. f_equal. lia. }
  destruct H as (k & Hk & Hn & Hv). rewrite Hn.
  split; [lia|]. split; [apply ec_io_read_byte|].
  replace (S k - 1)%nat with k by lia. exact Hv.
Qed.

(** ** Status and set commands *)

Lemma gpu_temp_nonneg (w : World) : 0 <= fst (gpu_temp w).
Proof.
  rewrite (gpu_temp_steps w).
  destruct (0 <? fst (gpu_temp_sysfs w)) eqn:E1; [cbn [fst]; lia|].
  destruct (0 <? fst (gpu_temp_nvidia_smi (snd (gpu_temp_sysfs w)))) eqn:E2;
    [cbn [fst]; lia|].
  apply ec_io_read_byte.
Qed.

Lemma rpm_read_range (reg_hi reg_lo : Z) (w : World) :
  0 <= fst ((hi <- ec_io_read reg_hi ;; lo <- ec_io_read reg_lo ;;
             ret (rpm_from_raw hi lo)) w) <= 2156220.
Proof.
  unfold bind.
  pose proof (ec_io_read_byte reg_hi w) as Hhi.
  destruct (ec_io_read reg_hi w) as [hi w1].
  pose proof (ec_io_read_byte reg_lo w1) as Hlo.
  destruct (ec_io_read reg_lo w1) as [lo w2].
  apply rpm_from_raw_bytes; assumption.
Qed.

Lemma fan_duty_read_range (w : World) :
  0 <= fst (fan1_duty_read w) <= 100 /\ 0 <= fst (fan2_duty_read w) <= 100.
Proof.
  unfold fan1_duty_read, fan2_duty_read, bind.
  destruct (ec_io_read EC_REG_FAN1_DUTY w) as [raw1 w1].
  destruct (ec_io_read EC_REG_FAN2_DUTY w) as [raw2 w2].
  split; apply duty_raw_to_pct_range.
Qed.

(** What [dump_status] returns and prints. *)
Lemma dump_status_values (w : World) :
  exists d,
    fst (dump_status w) = (0, Printed d) /\
    0 <= dump_cpu d <= 255 /\ 0 <= dump_gpu d /\
    0 <= dump_duty1 d <= 100 /\ 0 <= dump_duty2 d <= 100 /\
    0 <= dump_rpm1 d <= 2156220 /\ 0 <= dump_rpm2 d <= 2156220.
Proof.
  unfold dump_status, bind.
  pose proof (ec_io_read_byte EC_REG_CPU_TEMP w) as Hc.
  fold cpu_temp_ec in Hc. destruct (cpu_temp_ec w) as [tc w1].
  pose proof (gpu_temp_nonneg w1) as Hg.
  destruct (gpu_temp w1) as [tg w2].
  pose proof (proj1 (fan_duty_read_range w2)) as Hd1.
  destruct (fan1_duty_read w2) as [d1 w3].
  pose proof (rpm_read_range EC_REG_FAN1_RPM_HI EC_REG_FAN1_RPM_LO w3) as Hr1.
  fold fan1_rpm_read in Hr1. destruct (fan1_rpm_read w3) as [r1 w4].
  pose proof (proj2 (fan_duty_read_range w4)) as Hd2.
  destruct (fan2_duty_read w4) as [d2 w5].
  pose proof (rpm_read_range EC_REG_FAN2_RPM_HI EC_REG_FAN2_RPM_LO w5) as Hr2.
  fold fan2_rpm_read in Hr2. destruct (fan2_rpm_read w5) as [r2 w6].
  eexists. split; [reflexivity|]. cbn [fst snd] in *. simpl.
  repeat split; lia.
Qed.

(** X10 (the status display only reads).  In every world [dump_status]
    returns 0 and prints its two lines: a CPU temperature in [[0,255]], a GPU
    temperature that is not negative, duties in [[0,100]] and RPM values in
    [[0,2156220]].  It performs at most 2432 port reads, and every byte it
    sends is the read command on the command port or a register address on
    the data port. *)
Theorem dump_status_only_reads (w : World) :
  (exists d,
      fst (dump_status w) = (0, Printed d) /\
      0 <= dump_cpu d <= 255 /\ 0 <= dump_gpu d /\
      0 <= dump_duty1 d <= 100 /\ 0 <= dump_duty2 d <= 100 /\
      0 <= dump_rpm1 d <= 2156220 /\ 0 <= dump_rpm2 d <= 2156220) /\
  (reads_of dump_status w <= 2432)%nat /\
  exists bytes,
    outbs (trace (snd (dump_status w))) = (outbs (trace w) ++ bytes)%list /\
    forallb read_only_write bytes = true.
Proof.
  split; [apply dump_status_values|].
  destruct (io_bound_dump w) as (C & bytes & S & O).
  split; [unfold reads_of; lia|]. exists bytes. auto.
Qed.

(** A duty write reports 0 or -1, sends a prefix of its three bytes, and all
    three when it reports 0. *)
Lemma duty_write_sent (sel pct : Z) (w : World) :
  let r := ec_io_do 0x99 sel (duty_pct_to_raw pct) w in
  (fst r = 0 \/ fst r = -1) /\
  (exists k, outbs (trace (snd r)) =
             (outbs (trace w) ++
              firstn k [(0x99, EC_SC); (uint8 sel, EC_DATA);
                        (duty_pct_to_raw pct, EC_DATA)])%list) /\
  (fst r = 0 ->
     outbs (trace (snd r)) =
     (outbs (trace w) ++
      [(0x99, EC_SC); (uint8 sel, EC_DATA); (duty_pct_to_raw pct, EC_DATA)])%list).
Proof.
  cbv zeta.
  assert (Hraw : uint8 (duty_pct_to_raw pct) = duty_pct_to_raw pct)
    by (unfold duty_pct_to_raw, uint8; apply Z.mod_mod; lia).
  destruct (ec_io_do_outcome 0x99 sel (duty_pct_to_raw pct) w) as [Hr Hs].
  cbv zeta in Hr, Hs. rewrite Hr, Hs, Hraw. change (uint8 0x99) with 0x99.
  destruct (wait_times_out EC_SC IBF 0 w);
    [split; [right; reflexivity|]; split; [exists 0%nat; reflexivity | discriminate]|].
  destruct (wait_times_out EC_SC IBF 0 _);
    [split; [right; reflexivity|]; split; [exists 1%nat; reflexivity | discriminate]|].
  destruct (wait_times_out EC_SC IBF 0 _);
    [split; [right; reflexivity|]; split; [exists 2%nat; reflexivity | discriminate]|].
  destruct (wait_times_out EC_SC IBF 0 _);
    (split; [auto|]; split; [exists 3%nat; reflexivity|]; try discriminate;
     reflexivity).
Qed.

(** The two duty writes: result, and the bytes a successful write sent. *)
Lemma fan_write_facts (sel pct : Z) (w : World) :
  let r := ec_io_do 0x99 sel (duty_pct_to_raw pct) w in
  (fst r = 0 \/ fst r = -1) /\
  (exists k, outbs (trace (snd r)) =
             (outbs (trace w) ++ firstn k (duty_write_bytes (uint8 sel) pct))%list) /\
  (fst r = 0 ->
     outbs (trace (snd r)) =
     (outbs (trace w) ++ duty_write_bytes (uint8 sel) pct)%list).
Proof. exact (duty_write_sent sel pct w). Qed.

(** [cmd_set_both], by the first step that stops it. *)
Lemma cmd_set_both_steps (pct : Z) (w : World) :
  let w1 := snd (fan1_duty_write pct w) in
  let w2 := snd (fan2_duty_write pct w1) in
  cmd_set_both pct w =
    if (pct <? 0) || (100 <? pct)
    then ((1, Complained "Duty must be 0..100"), w)
    else if negb (fst (fan1_duty_write pct w) =? 0)
    then ((1, Complained "Failed to set fan1"), w1)
    else if negb (fst (fan2_duty_write pct w1) =? 0)
    then ((1, Complained "Failed to set fan2"), w2)
    else dump_status (snd (usleep (1000 * 1000) w2)).
Proof.
  cbv zeta. unfold cmd_set_both.
  destruct ((pct <? 0) || (100 <? pct)); [reflexivity|].
  unfold bind.
  destruct (fan1_duty_write pct w) as [r1 w1]. cbn [fst snd].
  destruct (negb (r1 =? 0)); [reflexivity|].
  destruct (fan2_duty_write pct w1) as [r2 w2]. cbn [fst snd].
  destruct (negb (r2 =? 0)); reflexivity.
Qed.

(** X11 (setting both fans).  [cmd_set_both] refuses a duty outside [[0,100]]
    without touching anything.  When the write to fan1 fails it stops there:
    the world is the one that attempt left, and fan2 is not addressed.  It
    returns 0 exactly when the duty is in range and both writes report
    success; it has then sent fan1's three bytes, fan2's three bytes, and
    after them only read commands, and it prints the status. *)
Theorem cmd_set_both_outcome (pct : Z) (w : World) :
  let w1 := snd (fan1_duty_write pct w) in
  let w2 := snd (fan2_duty_write pct w1) in
  let r := fst (fst (cmd_set_both pct w)) in
  (pct < 0 \/ 100 < pct ->
     cmd_set_both pct w = ((1, Complained "Duty must be 0..100"), w)) /\
  (0 <= pct <= 100 -> fst (fan1_duty_write pct w) <> 0 ->
     cmd_set_both pct w = ((1, Complained "Failed to set fan1"), w1)) /\
  (0 <= pct <= 100 -> fst (fan1_duty_write pct w) = 0 ->
   fst (fan2_duty_write pct w1) <> 0 ->
     cmd_set_both pct w = ((1, Complained "Failed to set fan2"), w2)) /\
  (r = 0 <->
     0 <= pct <= 100 /\ fst (fan1_duty_write pct w) = 0 /\
     fst (fan2_duty_write pct w1) = 0) /\
  (r = 0 ->
     exists d rest,
       snd (fst (cmd_set_both pct w)) = Printed d /\
       outbs (trace (snd (cmd_set_both pct w))) =
         (outbs (trace w) ++ duty_write_bytes 0x01 pct ++
          duty_write_bytes 0x02 pct ++ rest)%list /\
       forallb read_only_write rest = true).
Proof.
  intros w1 w2 r. subst r. rewrite (cmd_set_both_steps pct w).
  fold w1. fold w2.
  destruct (fan_write_facts 0x01 pct w) as (R1 & _ & B1).
  destruct (fan_write_facts 0x02 pct w1) as (R2 & _ & B2).
  change (ec_io_do 153 1 (duty_pct_to_raw pct) w) with (fan1_duty_write pct w) in *.
  change (ec_io_do 153 2 (duty_pct_to_raw pct) w1) with (fan2_duty_write pct w1) in *.
  fold w1 in B1. fold w2 in B2.
  destruct (dump_status_values (snd (usleep (1000 * 1000) w2))) as (d & Hd & _).
  destruct (io_bound_dump (snd (usleep (1000 * 1000) w2))) as (_ & rest & Hs & Ho).
  destruct ((pct <? 0) || (100 <? pct)) eqn:Erange.
  { apply orb_true_iff in Erange. cbn [fst].
    repeat split; intros; try reflexivity; try discriminate; lia. }
  apply orb_false_iff in Erange. destruct Erange as [E0 E100].
  apply Z.ltb_ge in E0, E100.
  destruct (fst (fan1_duty_write pct w) =? 0) eqn:E1; cbn [negb fst].
  2:{ apply Z.eqb_neq in E1.
      repeat split; intros; try reflexivity; try discriminate; try lia;
        try contradiction; tauto. }
  apply Z.eqb_eq in E1.
  destruct (fst (fan2_duty_write pct w1) =? 0) eqn:E2; cbn [negb fst].
  2:{ apply Z.eqb_neq in E2.
      repeat split; intros; try reflexivity; try discriminate; try lia;
        try contradiction; tauto. }
  apply Z.eqb_eq in E2. rewrite Hd. cbn [fst snd].
  split; [intros; lia|]. split; [intros; contradiction|].
  split; [intros; contradiction|].
  split; [split; [intros _; repeat split; lia | reflexivity]|].
  intros _. exists d, rest. split; [reflexivity|]. split; [|exact Ho].
  rewrite Hs, (usleep_outbs (1000 * 1000) w2).
  rewrite (B2 E2), (B1 E1). unfold duty_write_bytes.
  rewrite <- !app_assoc. reflexivity.
Qed.





(** ** The auto loop and the ports *)

Lemma io_bound_sense : io_bound 608 read_only_write auto_sense.
Proof.
  unfold auto_sense. change 608%nat with (304 + (304 + 0))%nat.
  apply io_bound_bind; [apply io_bound_read|]. intros tc.
  apply io_bound_bind; [apply io_bound_gpu_temp | intros; apply io_bound_ret].
Qed.

Lemma io_bound_apply (newduty last : Z) :
  io_bound 808 ec_write (auto_apply newduty last).
Proof.
  unfold auto_apply. destruct (negb (newduty =? last)); [|apply io_bound_ret].
  change 808%nat with (404 + (404 + 0))%nat.
  apply io_bound_bind; [apply io_bound_do|]. intros _.
  apply io_bound_bind; [apply io_bound_do | intros; apply io_bound_ret].
Qed.

(** The part of a cycle after the duty has been applied. *)
Lemma io_bound_report {A} (f : Z -> Z -> A) :
  io_bound 1216 read_only_write
    (r1 <- fan1_rpm_read ;; r2 <- fan2_rpm_read ;;
     usleep (1000 * 1000) ;;; ret (f r1 r2)).
Proof.
  change 1216%nat with (608 + (608 + (0 + 0)))%nat.
  apply io_bound_bind; [apply io_bound_rpm_read|]. intros r1.
  apply io_bound_bind; [apply io_bound_rpm_read|]. intros r2.
  apply io_bound_bind; [apply io_bound_usleep | intros; apply io_bound_ret].
Qed.

(** X13 (a cycle is bounded and quiet when nothing changes).  One cycle of the
    auto loop performs at most 2632 port reads, so it cannot hang on the
    controller.  All it ever sends are read commands and fan commands; and
    when the cycle leaves [last] as it was, it sends read commands only. *)
Theorem auto_cycle_io (last : Z) (w : World) :
  (reads_of (auto_cycle last) w <= 2632)%nat /\
  (exists bytes,
      outbs (trace (snd (auto_cycle last w))) = (outbs (trace w) ++ bytes)%list /\
      forallb ec_write bytes = true) /\
  (fst (fst (auto_cycle last w)) = last ->
   exists bytes,
      outbs (trace (snd (auto_cycle last w))) = (outbs (trace w) ++ bytes)%list /\
      forallb read_only_write bytes = true).
Proof.
  pose proof (auto_cycle_duty last w) as (_ & _ & Hn). cbv zeta in Hn.
  unfold reads_of. unfold auto_cycle, bind in *.
  destruct (io_bound_sense w) as (C1 & b1 & S1 & O1).
  destruct (auto_sense w) as [[[tc tg] th] w1]. cbn [fst snd] in *.
  set (nd := auto_new_duty th last) in *.
  destruct (io_bound_apply nd last w1) as (C2 & b2 & S2 & O2).
  assert (Hq : nd = last -> auto_apply nd last w1 = (last, w1)).
  { intros Heq. unfold auto_apply.
    rewrite (proj2 (Z.eqb_eq nd last) Heq). reflexivity. }
  destruct (auto_apply nd last w1) as [last' w2]. cbn [fst snd] in *.
  destruct (io_bound_report (fun r1 r2 => (last', mkStatus tc tg th nd r1 r2)) w2)
    as (C3 & b3 & S3 & O3).
  unfold bind in C3, S3.
  destruct (fan1_rpm_read w2) as [r1 w3].
  destruct (fan2_rpm_read w3) as [r2 w4].
  destruct (usleep (1000 * 1000) w4) as [u w5]. cbn [fst snd ret] in *.
  split; [lia|]. split.
  - exists (b1 ++ b2 ++ b3)%list. rewrite S3, S2, S1, <- !app_assoc.
    split; [reflexivity|]. rewrite !forallb_app, O2.
    rewrite forallb_forall in O1, O3.
    assert (forallb ec_write b1 = true)
      by (apply forallb_forall; intros x Hx; apply read_only_is_ec_write, O1, Hx).
    assert (forallb ec_write b3 = true)
      by (apply forallb_forall; intros x Hx; apply read_only_is_ec_write, O3, Hx).
    rewrite H, H0. reflexivity.
  - intros Hsame. assert (Heq : nd = last) by congruence.
    specialize (Hq Heq). inversion Hq; subst w2.
    exists (b1 ++ b3)%list. rewrite S3, S1, <- app_assoc.
    split; [reflexivity|]. rewrite forallb_app, O1, O3. reflexivity.
Qed.

(** X14 (the loop starts in step).  [cmd_auto] starts its loop from fan1's duty
    as read, a value in [[0,100]], after sending that duty to fan2, and it
    starts whether or not that write succeeded.  When it did, what has been
    sent is the read of fan1's duty register followed by fan2's three bytes,
    and the raw byte sent to fan2 is within one raw step of the byte read
    from fan1. *)
Theorem cmd_auto_starts_in_step (cycles : nat) (w : World) :
  let raw := fst (ec_io_read EC_REG_FAN1_DUTY w) in
  let w1 := snd (ec_io_read EC_REG_FAN1_DUTY w) in
  let last0 := duty_raw_to_pct raw in
  let w2 := snd (fan2_duty_write last0 w1) in
  cmd_auto cycles w = auto_loop cycles last0 w2 /\
  0 <= last0 <= 100 /\
  Z.abs (duty_pct_to_raw last0 - raw) <= 1 /\
  (fst (fan2_duty_write last0 w1) = 0 ->
     outbs (trace w2) =
     (outbs (trace w) ++ read_bytes EC_REG_FAN1_DUTY ++
      duty_write_bytes 0x02 last0)%list).
Proof.
  intros raw w1 last0 w2.
  assert (Hl : 0 <= last0 <= 100) by apply duty_raw_to_pct_range.
  assert (Hraw : 0 <= raw <= 255) by apply ec_io_read_byte.
  split.
  { unfold cmd_auto, fan1_duty_read, bind. subst w2 w1 last0 raw.
    destruct (ec_io_read EC_REG_FAN1_DUTY w) as [raw w1]. cbn [fst snd ret].
    rewrite clamp_id by apply duty_raw_to_pct_range.
    destruct (fan2_duty_write (duty_raw_to_pct raw) w1) as [r2 w2]. reflexivity. }
  split; [exact Hl|]. split.
  { apply duty_raw_round_trip_error, Hraw. }
  intros Hok. destruct (fan_write_facts 0x02 last0 w1) as (_ & _ & B).
  cbv zeta in B. unfold w2, fan2_duty_write. rewrite (B Hok).
  unfold w1. rewrite ec_io_read_outbs, <- app_assoc. reflexivity.
Qed.

(** ** The GPU sources *)

(** The scan written without the trace. *)
Lemma scan_temps_pure (base : string) (indices : list nat) :
  forall best w,
    fst (scan_temps base indices best w) =
    hottest_temp (files w) base indices best /\
    files (snd (scan_temps base indices best w)) = files w.
Proof.
  induction indices as [|i rest IH]; intros best w;
    cbn [scan_temps hottest_temp]; [split; reflexivity|].
  unfold bind, path_exists, read_int_from_file, open_read.
  cbn [files log bind].
  destruct (files w (temp_path base i)) as [| |bytes] eqn:Ef; cbn [negb].
  - apply (IH best (log (EvAccess (temp_path base i)) w)).
  - unfold bind. cbn [files log]. rewrite Ef. cbn [ret].
    change (0 <? -1) with false. cbv iota.
    apply (IH best (log (EvOpen (temp_path base i))
                      (log (EvAccess (temp_path base i)) w))).
  - unfold bind. cbn [files log]. rewrite Ef.
    change (64 - 1)%nat with 63%nat.
    destruct (substring 0 63 bytes) as [|c s]; cbn [ret].
    + change (0 <? -1) with false. cbv iota.
      apply (IH best (log (EvOpen (temp_path base i))
                        (log (EvAccess (temp_path base i)) w))).
    + destruct (0 <? atoi (String c s)) eqn:Epos.
      * replace (if best <? idiv (atoi (String c s)) 1000
                 then idiv (atoi (String c s)) 1000 else best)
          with (Z.max best (idiv (atoi (String c s)) 1000))
          by (destruct (best <? idiv (atoi (String c s)) 1000) eqn:E; lia).
        apply (IH _ (log (EvOpen (temp_path base i))
                       (log (EvAccess (temp_path base i)) w))).
      * apply (IH best (log (EvOpen (temp_path base i))
                          (log (EvAccess (temp_path base i)) w))).
Qed.

Lemma scan_hwmon_pure (entries : list string) :
  forall best w,
    fst (scan_hwmon entries best w) =
    hottest_monitor (files w) entries best /\
    files (snd (scan_hwmon entries best w)) = files w.
Proof.
  induction entries as [|d_name rest IH]; intros best w;
    cbn [scan_hwmon hottest_monitor]; [split; reflexivity|].
  unfold gpu_monitor.
  destruct (starts_with "hwmon" d_name); cbn [negb andb]; [|apply IH].
  unfold bind, open_read. change (64 - 1)%nat with 63%nat.
  destruct (files w (name_path (hwmon_base d_name))) as [| |bytes] eqn:Ef;
    try apply (IH best (log (EvOpen (name_path (hwmon_base d_name))) w)).
  destruct (substring 0 63 bytes) as [|c s] eqn:Eb.
  - change (gpu_driver_name (chomp "")) with false. cbv iota.
    apply (IH best (log (EvOpen (name_path (hwmon_base d_name))) w)).
  - destruct (gpu_driver_name (chomp (String c s)));
      [|apply (IH best (log (EvOpen (name_path (hwmon_base d_name))) w))].
    destruct (scan_temps_pure (hwmon_base d_name) (seq 1 10) best
                (log (EvOpen (name_path (hwmon_base d_name))) w)) as [Hv Hf].
    destruct (scan_temps (hwmon_base d_name) (seq 1 10) best
                (log (EvOpen (name_path (hwmon_base d_name))) w)) as [best' w'].
    cbn [fst snd files log] in Hv, Hf.
    destruct (IH best' w') as [IHv IHf].
    rewrite IHv, IHf, Hf, Hv. split; reflexivity.
Qed.

(** The hottest reading is a maximum: what is known beforehand can be taken
    into account afterwards. *)
Lemma hottest_temp_max (fs : string -> File) (base : string)
      (indices : list nat) :
  forall a b,
    hottest_temp fs base indices (Z.max a b) =
    Z.max a (hottest_temp fs base indices b).
Proof.
  induction indices as [|i rest IH]; intros a b; cbn [hottest_temp];
    [reflexivity|].
  destruct (fs (temp_path base i)) as [| |bytes]; try apply IH.
  destruct (0 <? match substring 0 63 bytes with
                 | "" => -1
                 | String _ _ => atoi (substring 0 63 bytes)
                 end); [|apply IH].
  rewrite <- Z.max_assoc. apply IH.
Qed.

Lemma monitor_step_max (fs : string -> File) (d_name : string) (a b : Z) :
  monitor_step fs d_name (Z.max a b) = Z.max a (monitor_step fs d_name b).
Proof.
  unfold monitor_step. destruct (gpu_monitor fs d_name); [|reflexivity].
  apply hottest_temp_max.
Qed.

Lemma monitor_step_swap (fs : string -> File) (d1 d2 : string) (best : Z) :
  monitor_step fs d2 (monitor_step fs d1 best) =
  monitor_step fs d1 (monitor_step fs d2 best).
Proof.
  assert (Hge : forall d b, monitor_step fs d b = Z.max b (monitor_step fs d b)).
  { intros d b. rewrite <- monitor_step_max, Z.max_id. reflexivity. }
  rewrite (Hge d1 best) at 1. rewrite Z.max_comm, monitor_step_max.
  rewrite (Hge d2 best) at 2. rewrite (Z.max_comm best), monitor_step_max.
  apply Z.max_comm.
Qed.

Lemma hottest_monitor_step (fs : string -> File) (d_name : string)
      (rest : list string) (best : Z) :
  hottest_monitor fs (d_name :: rest) best =
  hottest_monitor fs rest (monitor_step fs d_name best).
Proof.
  cbn [hottest_monitor]. unfold monitor_step.
  destruct (gpu_monitor fs d_name); reflexivity.
Qed.

Lemma hottest_monitor_perm (fs : string -> File) (l l' : list string) :
  Permutation l l' ->
  forall best, hottest_monitor fs l best = hottest_monitor fs l' best.
Proof.
  induction 1 as [|x l l' Hp IH|x y l|l l' l'' H1 IH1 H2 IH2]; intros best.
  - reflexivity.
  - rewrite !hottest_monitor_step. apply IH.
  - rewrite !hottest_monitor_step. rewrite monitor_step_swap. reflexivity.
  - rewrite IH1. apply IH2.
Qed.

(** X15 (the scan is a maximum).  The sensor scan returns the hottest positive
    reading, in whole degrees, over the monitors it takes for GPU monitors,
    and -1 when there is none; the order in which the directory lists its
    entries does not matter. *)
Theorem gpu_temp_sysfs_order_independent (w w' : World)
        (entries entries' : list string) :
  dir_entries w hwmon_dir = Some entries ->
  dir_entries w' hwmon_dir = Some entries' ->
  files w = files w' ->
  Permutation entries entries' ->
  fst (gpu_temp_sysfs w) = hottest_monitor (files w) entries (-1) /\
  fst (gpu_temp_sysfs w) = fst (gpu_temp_sysfs w') /\
  -1 <= fst (gpu_temp_sysfs w).
Proof.
  intros Hd Hd' Hf Hp.
  assert (Hv : forall v es, dir_entries v hwmon_dir = Some es ->
                            fst (gpu_temp_sysfs v) = hottest_monitor (files v) es (-1)).
  { intros v es Hdv. unfold gpu_temp_sysfs, bind, opendir. rewrite Hdv.
    apply (scan_hwmon_pure es (-1) (log (EvOpendir hwmon_dir) v)). }
  split; [apply Hv, Hd|]. split.
  - rewrite (Hv w entries Hd), (Hv w' entries' Hd'), <- Hf.
    apply hottest_monitor_perm, Hp.
  - unfold gpu_temp_sysfs, bind, opendir. rewrite Hd. apply scan_hwmon_mono.
Qed.

(** X16 (the GPU temperature is never an error code).  The vendor source
    answers -1 or a value strictly between 0 and 130, and answers -1 without
    starting a subprocess when the tool is not installed; the scan answers -1
    when the sensor hub cannot be opened; yet [gpu_temp] never returns a
    negative value: at worst it is the byte of the EC register. *)
Theorem gpu_temp_never_negative (w : World) :
  0 <= fst (gpu_temp w) /\
  (fst (gpu_temp_nvidia_smi w) = -1 \/ 0 < fst (gpu_temp_nvidia_smi w) < 130) /\
  (files w nvidia_smi_path = Absent ->
     gpu_temp_nvidia_smi w = (-1, log (EvAccess nvidia_smi_path) w)) /\
  (dir_entries w hwmon_dir = None ->
     gpu_temp_sysfs w = (-1, log (EvOpendir hwmon_dir) w)) /\
  (fst (gpu_temp_sysfs w) <= 0 ->
   fst (gpu_temp_nvidia_smi (snd (gpu_temp_sysfs w))) <= 0 ->
   0 <= fst (gpu_temp w) <= 255).
Proof.
  split; [apply gpu_temp_nonneg|]. split.
  { unfold gpu_temp_nvidia_smi, bind, path_exists, popen.
    destruct (files w nvidia_smi_path); cbn [negb ret fst]; try (left; reflexivity);
      cbn [subprocess log];
      (destruct (subprocess w nvidia_smi_cmd) as [out|]; [|left; reflexivity];
       destruct (fgets 64 out) as [buf|]; [|left; reflexivity];
       destruct ((0 <? atoi buf) && (atoi buf <? 130)) eqn:E; [|left; reflexivity];
       apply andb_true_iff in E; destruct E as [E1 E2];
       right; cbn [ret fst]; lia). }
  split.
  { intros Habs. unfold gpu_temp_nvidia_smi, bind, path_exists.
    rewrite Habs. reflexivity. }
  split.
  { intros Hnone. unfold gpu_temp_sysfs, bind, opendir. rewrite Hnone.
    reflexivity. }
  intros H1 H2. rewrite (gpu_temp_steps w).
  rewrite (proj2 (Z.ltb_ge 0 _) H1), (proj2 (Z.ltb_ge 0 _) H2).
  apply ec_io_read_byte.
Qed.

(** ** [main] *)

(** [atoi] of a string that does not start with white space, a sign or a
    digit. *)
Lemma atoi_not_a_number (c : ascii) (s : string) :
  isspace c = false -> digit_value c = None ->
  c <> "-"%char -> c <> "+"%char ->
  atoi (String c s) = 0.
Proof.
  intros Hsp Hdig Hm Hp. unfold atoi.
  assert (Hz : strtol (c_str (String c s)) = 0).
  { cbn [c_str]. destruct (Ascii.eqb c NUL) eqn:En; [reflexivity|].
    unfold strtol. cbn [skip_spaces]. rewrite Hsp.
    assert (Hd : digits 0 (String c (c_str s)) = 0)
      by (cbn [digits]; rewrite Hdig; reflexivity).
    destruct c as [b0 b1 b2 b3 b4 b5 b6 b7].
    destruct b0, b1, b2, b3, b4, b5, b6, b7;
      try (exfalso; apply Hm; reflexivity);
      try (exfalso; apply Hp; reflexivity);
      rewrite Hd; reflexivity. }
  rewrite Hz. reflexivity.
Qed.

(** X17 ([main] refuses without touching anything).  With fewer than two
    arguments, when [ioperm] fails for either port, for an unknown command,
    and for [set], [set1] or [set2] without a value, [main] returns 1 and
    leaves the world as it is: no port is read or written.  A value for
    [set] that does not start with white space, a sign or a digit is taken
    as 0: both fans are set to 0 percent. *)
Theorem main_refuses_untouched (ioperm : Z -> Z) (cycles : nat)
        (argv : list string) (w : World) :
  ((List.length argv < 2)%nat ->
     main ioperm cycles argv w = ((1, Complained "Usage"), w)) /\
  ((2 <= List.length argv)%nat ->
   ioperm EC_DATA <> 0 \/ ioperm EC_SC <> 0 ->
     main ioperm cycles argv w = ((1, Complained "EC init failed"), w)) /\
  (forall prog command args,
      argv = prog :: command :: args ->
      ioperm EC_DATA = 0 -> ioperm EC_SC = 0 ->
      (command <> "dump" -> command <> "set" -> command <> "set1" ->
       command <> "set2" -> command <> "auto" ->
         main ioperm cycles argv w = ((1, Complained "Unknown command"), w)) /\
      (args = [] ->
       command = "set" \/ command = "set1" \/ command = "set2" ->
         fst (fst (main ioperm cycles argv w)) = 1 /\
         snd (main ioperm cycles argv w) = w) /\
      (forall c s rest,
          command = "set" -> args = String c s :: rest ->
          isspace c = false -> digit_value c = None ->
          c <> "-"%char -> c <> "+"%char ->
          main ioperm cycles argv w = cmd_set_both 0 w)).
Proof.
  split.
  { intros Hlen. destruct argv as [|a0 [|a1 rest]]; simpl in Hlen;
      [reflexivity | reflexivity | lia]. }
  split.
  { intros Hlen Hperm. destruct argv as [|a0 [|a1 rest]]; simpl in Hlen; try lia.
    cbn [main]. unfold ec_init.
    destruct (ioperm EC_DATA =? 0) eqn:Ed; [|reflexivity].
    destruct (ioperm EC_SC =? 0) eqn:Es; [|reflexivity].
    apply Z.eqb_eq in Ed, Es. destruct Hperm; contradiction. }
  intros prog command args -> Hd Hs. cbn [main]. unfold ec_init.
  rewrite Hd, Hs. cbn [Z.eqb negb].
  split.
  { intros N1 N2 N3 N4 N5.
    rewrite (proj2 (String.eqb_neq _ _) N1), (proj2 (String.eqb_neq _ _) N2),
      (proj2 (String.eqb_neq _ _) N3), (proj2 (String.eqb_neq _ _) N4),
      (proj2 (String.eqb_neq _ _) N5). reflexivity. }
  split.
  { intros -> [-> | [-> | ->]]; split; reflexivity. }
  intros c s rest -> -> Hsp Hdig Hm Hp.
  cbn [String.eqb Ascii.eqb Bool.eqb andb]. cbv iota.
  rewrite (atoi_not_a_number c s Hsp Hdig Hm Hp). reflexivity.
Qed.

(** ** Instances of the further properties *)

Lemma target_monotone_35_45 :
  target_duty_from_temp_hot 35 50 <= target_duty_from_temp_hot 45 50.
Proof.
  apply (target_monotone_in_temp 35 45 50). lia.
Defined.

Lemma fans_keep_state_from_rest :
  auto_new_duty 42 0 = 0 /\ auto_new_duty 43 0 = 2.
Proof.
  destruct (fans_keep_state 42 0) as (Hoff & _); [lia|].
  destruct (fans_keep_state 43 0) as (_ & _ & _ & Hstart); [lia|].
  split; [apply Hoff; lia | apply Hstart; lia].
Defined.

Lemma scan_of_three_monitors :
  fst (gpu_temp_sysfs (world_three_monitors ["hwmon0"; "hwmon1"; "hwmon2"])) = 61 /\
  fst (gpu_temp_sysfs (world_three_monitors ["hwmon2"; "hwmon0"; "hwmon1"])) = 61.
Proof.
  destruct (gpu_temp_sysfs_order_independent
              (world_three_monitors ["hwmon0"; "hwmon1"; "hwmon2"])
              (world_three_monitors ["hwmon2"; "hwmon0"; "hwmon1"])
              ["hwmon0"; "hwmon1"; "hwmon2"] ["hwmon2"; "hwmon0"; "hwmon1"])
    as (Hmax & Hsame & _); try reflexivity.
  - apply Permutation_sym.
    apply (Permutation_cons_app ["hwmon0"; "hwmon1"] [] "hwmon2").
    rewrite app_nil_r. apply Permutation_refl.
  - rewrite <- Hsame. split; rewrite Hmax; vm_compute; reflexivity.
Defined.

(* ================================================================== *)
(** * The auto cycle and the source order *)

(** ** What a cycle does to the world *)

(** A duty write sends the first [k] of its three bytes, all three when it
    reports success. *)
Lemma fan_write_prefix (sel pct : Z) (w : World) :
  let r := ec_io_do 0x99 sel (duty_pct_to_raw pct) w in
  exists k,
    outbs (trace (snd r)) =
      (outbs (trace w) ++ firstn k (duty_write_bytes (uint8 sel) pct))%list /\
    (fst r = 0 -> k = 3%nat).
Proof.
  cbv zeta.
  assert (Hraw : uint8 (duty_pct_to_raw pct) = duty_pct_to_raw pct)
    by (unfold duty_pct_to_raw, uint8; apply Z.mod_mod; lia).
  destruct (ec_io_do_outcome 0x99 sel (duty_pct_to_raw pct) w) as [Hr Hs].
  cbv zeta in Hr, Hs. rewrite Hr, Hs, Hraw. change (uint8 0x99) with 0x99.
  unfold duty_write_bytes.
  destruct (wait_times_out EC_SC IBF 0 w);
    [exists 0%nat; split; [reflexivity | discriminate]|].
  destruct (wait_times_out EC_SC IBF 0 _);
    [exists 1%nat; split; [reflexivity | discriminate]|].
  destruct (wait_times_out EC_SC IBF 0 _);
    [exists 2%nat; split; [reflexivity | discriminate]|].
  exists 3%nat. split; reflexivity.
Qed.

(** The bytes the report part of a cycle sends. *)
Lemma auto_report_outbs (w : World) :
  outbs (trace (snd (auto_report w))) = (outbs (trace w) ++ rpm_bytes)%list.
Proof.
  unfold auto_report, fan1_rpm_read, fan2_rpm_read, bind.
  pose proof (ec_io_read_outbs EC_REG_FAN1_RPM_HI w) as H1.
  destruct (ec_io_read EC_REG_FAN1_RPM_HI w) as [h1 w1]. cbn [snd] in H1.
  pose proof (ec_io_read_outbs EC_REG_FAN1_RPM_LO w1) as H2.
  destruct (ec_io_read EC_REG_FAN1_RPM_LO w1) as [l1 w2]. cbn [snd ret] in *.
  pose proof (ec_io_read_outbs EC_REG_FAN2_RPM_HI w2) as H3.
  destruct (ec_io_read EC_REG_FAN2_RPM_HI w2) as [h2 w3]. cbn [snd] in H3.
  pose proof (ec_io_read_outbs EC_REG_FAN2_RPM_LO w3) as H4.
  destruct (ec_io_read EC_REG_FAN2_RPM_LO w3) as [l2 w4]. cbn [snd ret] in *.
  cbn [usleep ret snd log trace]. rewrite outbs_app. cbn [outbs].
  rewrite app_nil_r, H4, H3, H2, H1.
  unfold rpm_bytes. rewrite <- !app_assoc. reflexivity.
Qed.

(** The world a cycle leaves: sensing, then the duty applied, then the
    report. *)
Lemma auto_cycle_world (last : Z) (w : World) :
  snd (auto_cycle last w) =
  snd (auto_report
         (snd (auto_apply (auto_new_duty (snd (fst (auto_sense w))) last) last
                          (snd (auto_sense w))))).
Proof.
  unfold auto_cycle, auto_report, bind.
  destruct (auto_sense w) as [[[tc tg] th] ws]. cbn [fst snd].
  destruct (auto_apply (auto_new_duty th last) last ws) as [last' wa].
  cbn [snd].
  destruct (fan1_rpm_read wa) as [r1 w3].
  destruct (fan2_rpm_read w3) as [r2 w4].
  destruct (usleep (1000 * 1000) w4) as [u w5]. reflexivity.
Qed.

Lemma auto_apply_world (newduty last : Z) (w : World) :
  auto_apply newduty last w =
  if newduty =? last then (last, w)
  else (newduty,
        snd (fan2_duty_write newduty (snd (fan1_duty_write newduty w)))).
Proof.
  unfold auto_apply, bind.
  destruct (newduty =? last); cbn [negb]; [reflexivity|].
  destruct (fan1_duty_write newduty w) as [r1 w1]. cbn [snd].
  destruct (fan2_duty_write newduty w1) as [r2 w2]. reflexivity.
Qed.

(** C2, as the code has it.  A cycle of the auto loop whose new duty differs
    from [last] issues the duty write to fan1 and then to fan2 and goes on to
    the report, whatever the two writes return: the world the cycle leaves is
    the one reached through both write attempts, and the bytes it sends after
    sensing are a prefix of fan1's three bytes, a prefix of fan2's three
    bytes (all three of a write that reports success) and the RPM reads.  A
    cycle whose new duty equals [last] attempts no write and sends the RPM
    reads only.  In both cases the value [last] takes is the new duty,
    independently of what the writes return. *)
Theorem auto_cycle_last_follows_new_duty (last : Z) (w : World) :
  let th := snd (fst (auto_sense w)) in
  let ws := snd (auto_sense w) in
  let newduty := auto_new_duty th last in
  let w1 := snd (fan1_duty_write newduty ws) in
  let w2 := snd (fan2_duty_write newduty w1) in
  fst (fst (auto_cycle last w)) = newduty /\
  (newduty <> last -> snd (auto_cycle last w) = snd (auto_report w2)) /\
  (newduty = last -> snd (auto_cycle last w) = snd (auto_report ws)) /\
  (newduty <> last ->
     exists k1 k2,
       outbs (trace (snd (auto_cycle last w))) =
         (outbs (trace ws) ++ firstn k1 (duty_write_bytes 0x01 newduty) ++
          firstn k2 (duty_write_bytes 0x02 newduty) ++ rpm_bytes)%list /\
       (fst (fan1_duty_write newduty ws) = 0 -> k1 = 3%nat) /\
       (fst (fan2_duty_write newduty w1) = 0 -> k2 = 3%nat)) /\
  (newduty = last ->
     outbs (trace (snd (auto_cycle last w))) =
       (outbs (trace ws) ++ rpm_bytes)%list) /\
  (newduty <> last -> auto_apply newduty last ws = (newduty, w2)) /\
  (newduty = last -> auto_apply newduty last ws = (last, ws)) /\
  (fst (fan1_duty_write newduty ws) = 0 ->
     outbs (trace w1) = (outbs (trace ws) ++ duty_write_bytes 0x01 newduty)%list) /\
  (fst (fan2_duty_write newduty w1) = 0 ->
     outbs (trace w2) = (outbs (trace w1) ++ duty_write_bytes 0x02 newduty)%list).
Proof.
  intros th ws newduty w1 w2.
  assert (Hraw : uint8 (duty_pct_to_raw newduty) = duty_pct_to_raw newduty)
    by (unfold duty_pct_to_raw, uint8; apply Z.mod_mod; lia).
  assert (Hw : snd (auto_cycle last w) =
               snd (auto_report (snd (auto_apply newduty last ws))))
    by apply auto_cycle_world.
  assert (Hne : newduty <> last -> auto_apply newduty last ws = (newduty, w2)).
  { intros N. rewrite auto_apply_world.
    rewrite (proj2 (Z.eqb_neq newduty last) N). reflexivity. }
  assert (Heq : newduty = last -> auto_apply newduty last ws = (last, ws)).
  { intros E. rewrite auto_apply_world.
    rewrite (proj2 (Z.eqb_eq newduty last) E). reflexivity. }
  split; [apply auto_cycle_duty|].
  split; [intros N; rewrite Hw, (Hne N); reflexivity|].
  split; [intros E; rewrite Hw, (Heq E); reflexivity|].
  split.
  { intros N. rewrite Hw, (Hne N). cbn [snd]. rewrite auto_report_outbs.
    destruct (fan_write_prefix 0x01 newduty ws) as (k1 & P1 & F1).
    destruct (fan_write_prefix 0x02 newduty w1) as (k2 & P2 & F2).
    cbv zeta in P1, F1, P2, F2.
    exists k1, k2. split; [|split; [exact F1 | exact F2]].
    unfold w2, fan2_duty_write. rewrite P2.
    unfold w1, fan1_duty_write. rewrite P1.
    rewrite <- !app_assoc. reflexivity. }
  split.
  { intros E. rewrite Hw, (Heq E). apply auto_report_outbs. }
  split; [exact Hne|]. split; [exact Heq|].
  split; intros Hok.
  - unfold w1, fan1_duty_write in *.
    rewrite (ec_io_do_sent _ _ _ _ Hok), Hraw. reflexivity.
  - unfold w2, fan2_duty_write in *.
    rewrite (ec_io_do_sent _ _ _ _ Hok), Hraw. reflexivity.
Qed.

(** C2 as stated fails.  The controller answers the eight port reads of the
    sensing phase with 80 degrees and then keeps IBF set: both duty writes of
    the cycle report -1, yet [last] goes from 0 to 100; the next cycle finds
    the new duty equal to [last] and sends no fan command (0x99) at all. *)
Lemma write_failure_moves_last :
  snd (fst (auto_sense (world_stalls_after 8 80))) = 80 /\
  auto_new_duty 80 0 = 100 /\
  fst (fan1_duty_write 100 (snd (auto_sense (world_stalls_after 8 80)))) = -1 /\
  fst (fan2_duty_write 100
         (snd (fan1_duty_write 100 (snd (auto_sense (world_stalls_after 8 80))))))
    = -1 /\
  fst (fst (auto_cycle 0 (world_stalls_after 8 80))) = 100 /\
  fst (fst (auto_loop 2 0 (world_stalls_after 8 80))) = 100 /\
  existsb (fun vp => fst vp =? 0x99)
          (outbs (trace (snd (auto_loop 2 0 (world_stalls_after 8 80))))) = false.
Proof. vm_compute. repeat split; reflexivity. Qed.

Lemma auto_cycle_ready_80 :
  outbs (trace (snd (auto_cycle 0 (world_ready 80)))) =
  (outbs (trace (snd (auto_sense (world_ready 80)))) ++
   duty_write_bytes 0x01 100 ++ duty_write_bytes 0x02 100 ++ rpm_bytes)%list.
Proof.
  pose proof (auto_cycle_last_follows_new_duty 0 (world_ready 80))
    as (_ & _ & _ & Hsent & _).
  cbv zeta in Hsent.
  destruct Hsent as (k1 & k2 & Hb & H1 & H2); [vm_compute; discriminate|].
  rewrite (H1 ltac:(vm_compute; reflexivity)) in Hb.
  rewrite (H2 ltac:(vm_compute; reflexivity)) in Hb.
  exact Hb.
Defined.

(** ** The hottest reading *)

Lemma idiv_1000_le_55 (milli : Z) :
  0 < milli < 56000 -> idiv milli 1000 <= 55.
Proof.
  intros Hm. unfold idiv. rewrite Z.quot_div_nonneg by lia.
  assert (0 <= milli / 1000) by (apply Z.div_pos; lia).
  assert (milli / 1000 < 56) by (apply Z.div_lt_upper_bound; lia).
  rewrite int32_small by int_range. lia.
Qed.

(** With every reading below 56000 millidegrees nothing exceeds 55. *)
Lemma hottest_temp_le_55 (fs : string -> File) (base : string)
      (indices : list nat) :
  (forall j b, In j indices -> fs (temp_path base j) = Content b ->
               atoi (substring 0 63 b) < 56000) ->
  forall best, hottest_temp fs base indices best <= Z.max best 55.
Proof.
  induction indices as [|i rest IH]; intros Hall best; cbn [hottest_temp];
    [lia|].
  assert (Hrest : forall j b, In j rest -> fs (temp_path base j) = Content b ->
                              atoi (substring 0 63 b) < 56000)
    by (intros j b Hj; apply Hall; right; exact Hj).
  destruct (fs (temp_path base i)) as [| |bytes] eqn:Ef;
    try (apply IH; exact Hrest).
  pose proof (Hall i bytes (or_introl eq_refl) Ef) as Hlt.
  destruct (substring 0 63 bytes) as [|c s].
  - change (0 <? -1) with false. cbv iota. apply IH, Hrest.
  - destruct (0 <? atoi (String c s)) eqn:Epos; [|apply IH, Hrest].
    apply Z.ltb_lt in Epos.
    pose proof (idiv_1000_le_55 (atoi (String c s)) (conj Epos Hlt)).
    etransitivity; [apply IH, Hrest | lia].
Qed.

Lemma hottest_monitor_le_55 (fs : string -> File) (entries : list string) :
  (forall d j b, In d entries -> gpu_monitor fs d = true -> In j (seq 1 10) ->
                 fs (temp_path (hwmon_base d) j) = Content b ->
                 atoi (substring 0 63 b) < 56000) ->
  forall best, hottest_monitor fs entries best <= Z.max best 55.
Proof.
  induction entries as [|d rest IH]; intros Hall best; cbn [hottest_monitor];
    [lia|].
  assert (Hrest : forall d' j b, In d' rest -> gpu_monitor fs d' = true ->
                                 In j (seq 1 10) ->
                                 fs (temp_path (hwmon_base d') j) = Content b ->
                                 atoi (substring 0 63 b) < 56000)
    by (intros d' j b Hd; apply Hall; right; exact Hd).
  destruct (gpu_monitor fs d) eqn:Eg; [|apply IH, Hrest].
  pose proof (hottest_temp_le_55 fs (hwmon_base d) (seq 1 10)
                (fun j b Hj Hf => Hall d j b (or_introl eq_refl) Eg Hj Hf) best).
  etransitivity; [apply IH, Hrest | lia].
Qed.

(** The scan's answer is the hottest reading over the GPU monitors. *)
Lemma gpu_temp_sysfs_hottest (w : World) (entries : list string) :
  dir_entries w hwmon_dir = Some entries ->
  fst (gpu_temp_sysfs w) = hottest_monitor (files w) entries (-1).
Proof.
  intros Hd. unfold gpu_temp_sysfs, bind, opendir. rewrite Hd.
  apply (scan_hwmon_pure entries (-1) (log (EvOpendir hwmon_dir) w)).
Qed.

(** C9 (GPU source order), as the code has it.  With the three sources taken
    in order (sensor hub scan, vendor tool, EC register), each in the world
    the previous one left:
    - a positive scan result is the answer, and the world is the one the
      scan left: no vendor tool event, no port I/O;
    - otherwise a positive vendor result is the answer, with no port I/O;
    - otherwise the answer is the EC register;
    - the scan itself never looks for or starts the vendor tool;
    - where the hub lists a monitor whose name contains "amdgpu" and one of
      whose [temp1_input] .. [temp10_input] reads 55000, the answer is the
      hottest reading over all GPU monitors of the hub: at least 55, and
      exactly 55 when no GPU monitor reads 56000 millidegrees or more; the
      vendor tool is neither looked for nor started, and no port is
      touched;
    - on the hub made of that one monitor the answer is 55, although the
      vendor tool is installed and would answer 70. *)
Theorem gpu_temp_source_order (w : World) :
  let t1 := fst (gpu_temp_sysfs w) in
  let w1 := snd (gpu_temp_sysfs w) in
  let t2 := fst (gpu_temp_nvidia_smi w1) in
  let w2 := snd (gpu_temp_nvidia_smi w1) in
  (0 < t1 -> gpu_temp w = (t1, w1)) /\
  (t1 <= 0 -> 0 < t2 -> gpu_temp w = (t2, w2)) /\
  (t1 <= 0 -> t2 <= 0 -> gpu_temp w = ec_io_read EC_REG_GPU_TEMP w2) /\
  (exists evs, trace w1 = (trace w ++ evs)%list /\
               existsb vendor_event evs = false /\
               existsb port_event evs = false) /\
  (exists evs, trace w2 = (trace w1 ++ evs)%list /\
               existsb port_event evs = false) /\
  (forall entries d_name i namebytes bytes,
      dir_entries w hwmon_dir = Some entries ->
      In d_name entries ->
      starts_with "hwmon" d_name = true ->
      files w (name_path (hwmon_base d_name)) = Content namebytes ->
      strstr (chomp (substring 0 63 namebytes)) "amdgpu" = true ->
      In i (seq 1 10) ->
      files w (temp_path (hwmon_base d_name) i) = Content bytes ->
      atoi (substring 0 63 bytes) = 55000 ->
      fst (gpu_temp w) = hottest_monitor (files w) entries (-1) /\
      55 <= fst (gpu_temp w) /\
      ((forall d j b,
           In d entries -> gpu_monitor (files w) d = true ->
           In j (seq 1 10) ->
           files w (temp_path (hwmon_base d) j) = Content b ->
           atoi (substring 0 63 b) < 56000) ->
       fst (gpu_temp w) = 55) /\
      exists evs, trace (snd (gpu_temp w)) = (trace w ++ evs)%list /\
                  existsb vendor_event evs = false /\
                  existsb port_event evs = false) /\
  fst (gpu_temp world_amdgpu) = 55 /\
  existsb vendor_event (trace (snd (gpu_temp world_amdgpu))) = false /\
  existsb port_event (trace (snd (gpu_temp world_amdgpu))) = false.
Proof.
  intros t1 w1 t2 w2.
  pose proof (gpu_temp_steps w) as Hsteps. cbv zeta in Hsteps.
  fold t1 w1 in Hsteps. fold t2 w2 in Hsteps.
  assert (Hscan : exists evs, trace w1 = (trace w ++ evs)%list /\
                              existsb vendor_event evs = false /\
                              existsb port_event evs = false).
  { destruct (gpu_temp_sysfs_adds w) as (evs & T & O & _).
    exists evs. split; [exact T | apply hub_events_quiet, O]. }
  split.
  { intros H. rewrite Hsteps, (proj2 (Z.ltb_lt 0 t1) H). reflexivity. }
  split.
  { intros H1 H2. rewrite Hsteps, (proj2 (Z.ltb_ge 0 t1) H1),
      (proj2 (Z.ltb_lt 0 t2) H2). reflexivity. }
  split.
  { intros H1 H2. rewrite Hsteps, (proj2 (Z.ltb_ge 0 t1) H1),
      (proj2 (Z.ltb_ge 0 t2) H2). reflexivity. }
  split; [exact Hscan|].
  split.
  { destruct (gpu_temp_nvidia_smi_adds w1) as (evs & T & O & _).
    exists evs. split; [exact T|].
    clear T. induction evs as [|e evs IH]; [reflexivity|].
    simpl in O. apply andb_true_iff in O. destruct O as [He Hrest].
    apply negb_true_iff in He. simpl. rewrite He. apply IH, Hrest. }
  split.
  { intros entries d_name i namebytes bytes Hdir Hin Hpre Hname Hamd Hi Hfile Hval.
    assert (Hdrv : gpu_driver_name (chomp (substring 0 63 namebytes)) = true).
    { unfold gpu_driver_name. rewrite Hamd.
      destruct (strstr (chomp (substring 0 63 namebytes)) "nvidia"); reflexivity. }
    assert (Hlow : 55 <= t1).
    { change 55 with (idiv 55000 1000). rewrite <- Hval.
      apply (gpu_temp_sysfs_finds w entries d_name i namebytes bytes);
        try assumption. rewrite Hval. lia. }
    assert (Hmax : t1 = hottest_monitor (files w) entries (-1))
      by (apply gpu_temp_sysfs_hottest, Hdir).
    rewrite Hsteps, (proj2 (Z.ltb_lt 0 t1)) by lia. cbn [fst snd].
    split; [exact Hmax|]. split; [exact Hlow|]. split; [|exact Hscan].
    intros Hcool.
    pose proof (hottest_monitor_le_55 (files w) entries Hcool (-1)) as Hup.
    rewrite <- Hmax in Hup. lia. }
  vm_compute. repeat split; reflexivity.
Qed.

(** C9 as stated fails.  The hub has a monitor named "amdgpu" whose
    [temp1_input] reads 55000 and a monitor named "nvidia" reading 70000:
    the scan keeps the hottest, and the answer is 70, not 55.  The vendor
    tool, installed, is not looked for. *)
Lemma hotter_monitor_wins :
  dir_entries world_two_gpus hwmon_dir = Some ["."; ".."; "hwmon0"; "hwmon1"] /\
  files world_two_gpus (name_path (hwmon_base "hwmon0")) =
    Content ("amdgpu" ++ newline) /\
  files world_two_gpus (temp_path (hwmon_base "hwmon0") 1) =
    Content ("55000" ++ newline) /\
  fst (gpu_temp_sysfs world_two_gpus) = 70 /\
  fst (gpu_temp world_two_gpus) = 70 /\
  existsb vendor_event (trace (snd (gpu_temp world_two_gpus))) = false.
Proof. vm_compute. repeat split; reflexivity. Qed.

Lemma gpu_temp_amdgpu_hub :
  fst (gpu_temp world_amdgpu) = 55 /\
  fst (gpu_temp world_two_gpus) = hottest_monitor (files world_two_gpus)
                                    ["."; ".."; "hwmon0"; "hwmon1"] (-1).
Proof.
  split.
  - pose proof (gpu_temp_source_order world_amdgpu)
      as (_ & _ & _ & _ & _ & Hfind & _).
    destruct (Hfind ["."; ".."; "hwmon0"] "hwmon0" 1%nat
                    ("amdgpu" ++ newline) ("55000" ++ newline)
                    eq_refl ltac:(simpl; auto) eq_refl eq_refl eq_refl
                    ltac:(simpl; auto) eq_refl eq_refl)
      as (_ & _ & Hexact & _).
    apply Hexact. intros d j b Hd Hg Hj Hf.
    destruct Hd as [<- | [<- | [<- | []]]]; try (vm_compute in Hg; discriminate).
    simpl in Hj.
    repeat (destruct Hj as [<- | Hj];
            [vm_compute in Hf; try discriminate; inversion Hf; subst b;
             vm_compute; reflexivity|]).
    contradiction.
  - pose proof (gpu_temp_source_order world_two_gpus)
      as (_ & _ & _ & _ & _ & Hfind & _).
    destruct (Hfind ["."; ".."; "hwmon0"; "hwmon1"] "hwmon0" 1%nat
                    ("amdgpu" ++ newline) ("55000" ++ newline)
                    eq_refl ltac:(simpl; auto) eq_refl eq_refl eq_refl
                    ltac:(simpl; auto) eq_refl eq_refl)
      as (Hmax & _).
    exact Hmax.
Defined.
